(** * The user controller of the scan-history service

    A shallow embedding of the request handlers of the user controller
    (addProductInHistory, getStatsAndLastProduct, getHistoryOfUser,
    getInformationOfUser, editInformationOfUser, login) together with the
    part of the document store and of the aggregation engine they call,
    followed by the properties of the specification stated on them. *)

From Stdlib Require Import ZArith Lia.
From stdpp Require Import base option list sorting strings gmap.

Local Open Scope Z_scope.

(** ** Values *)

(** An ObjectId is compared for equality only; its 24 hexadecimal digits
    are kept as a string. *)
Definition ObjectId := string.

(** A Date is the number of milliseconds since the epoch. *)
Definition Date := Z.

(** The values found in request bodies and responses; an ObjectId travels
    as the string of its digits. *)
#[warnings="-register-all"]
Inductive Value :=
| VNull
| VBool (b : bool)
| VNum (n : Z)
| VStr (s : string)
| VDate (d : Date)
| VArr (l : list Value)
| VObj (fields : list (string * Value)).

(** The value a rejected store call or a rejected hasher call carries. *)
Definition Error := string.

(** ** Documents *)

(** An element of [history]. *)
Record ScanEvent := {
  product : ObjectId;
  date_scan : Date;
  owner : bool
}.

(** Modelled from the spec: the User schema (models/User is not among the
    sources); the fields are those of the data model, under the names the
    controller and its API examples use. *)
Record User := {
  _id : ObjectId;
  fullname : string;
  mail : string;
  password : string;
  timezone : string;
  registration_date : Date;
  roles : list string;
  number_scan : Z;
  history : list ScanEvent
}.

(** Modelled from the spec: the Product documents of the collection
    'product' the $lookup stages join against; fields as in the API
    examples of the controller. *)
Record Product := {
  p_id : ObjectId;
  brand : list string;
  categories : list string;
  packaging : list string;
  bin : list string;
  name : string;
  description : string;
  img : string;
  barcode : string;
  creation_date : Date
}.

(** The two collections the controller reads and writes, in their natural
    order. *)
Record Store := {
  users : list User;
  products : list Product
}.

(** ** Promises *)

(** A settled promise. *)
Inductive Promise (A : Type) :=
| Resolved (a : A)
| Rejected (e : Error).
Arguments Resolved {A} a.
Arguments Rejected {A} e.

(** A store call either runs or is rejected by the driver (connection
    lost, cast error, write refused); [fault] says which. *)
Definition settle {A : Type} (fault : option Error) (a : A) : Promise A :=
  match fault with
  | None => Resolved a
  | Some e => Rejected e
  end.

(** [p.then(f).catch(g)] for handlers [f] and [g] that do not throw. *)
Definition then_catch {A B : Type} (p : Promise A) (f : A → B) (g : Error → B) : B :=
  match p with
  | Resolved a => f a
  | Rejected e => g e
  end.

(** ** Responses *)

Record Response := {
  status : Z;
  json : Value
}.

Definition respond (code : Z) (v : Value) : Response :=
  {| status := code; json := v |}.

(** The body [{ error }]. *)
Definition error_body (e : Error) : Value := VObj [("error", VStr e)].

(** The body [{ message: m }]. *)
Definition message_body (m : string) : Value := VObj [("message", VStr m)].

(** ** Dates *)

Definition ms_per_day : Z := 86400000.

(** [new Date()] reads the clock; the readings are inputs of the handlers.
    [d.setHours(h, m, s)] replaces the hour, the minute and the second of
    [d] in local time and returns the new time value; the day and the
    milliseconds of [d] are kept, since the fourth argument is not given.
    [tz] is the offset of local time from UTC, in milliseconds. *)
Definition setHours (tz : Z) (d : Date) (h m s : Z) : Date :=
  let loc := d + tz in
  (loc `div` ms_per_day) * ms_per_day
  + h * 3600000 + m * 60000 + s * 1000 + loc `mod` 1000 - tz.

(** Local midnight of the local day of [d]. *)
Definition local_midnight (tz : Z) (d : Date) : Date :=
  ((d + tz) `div` ms_per_day) * ms_per_day - tz.

(** [d] and [d'] fall on the same local day. *)
Definition same_local_day (tz : Z) (d d' : Date) : Prop :=
  (d + tz) `div` ms_per_day = (d' + tz) `div` ms_per_day.

(** ** Store calls *)

(** [Model.findOne(filter)]: the first document that matches, or null. *)
Definition findOne (fault : option Error) (P : User → Prop)
    `{!∀ u, Decision (P u)} (db : Store) : Promise (option User) :=
  settle fault (head (filter P (users db))).

(** The first document that matches is replaced by its update; the count
    of matched documents comes with the new collection. *)
Fixpoint update_first (P : User → Prop) `{!∀ u, Decision (P u)}
    (upd : User → Promise User) (l : list User) : Promise (Z * list User) :=
  match l with
  | [] => Resolved (0, [])
  | u :: l' =>
      if decide (P u) then
        match upd u with
        | Resolved u' => Resolved (1, u' :: l')
        | Rejected e => Rejected e
        end
      else
        match update_first P upd l' with
        | Resolved (n, l'') => Resolved (n, u :: l'')
        | Rejected e => Rejected e
        end
  end.

(** [Model.updateOne(filter, update)]: resolves with the number of matched
    documents; a rejected call leaves the store as it was. *)
Definition updateOne (fault : option Error) (P : User → Prop)
    `{!∀ u, Decision (P u)} (upd : User → Promise User) (db : Store)
    : Promise Z * Store :=
  match fault with
  | Some e => (Rejected e, db)
  | None =>
      match update_first P upd (users db) with
      | Resolved (n, l) => (Resolved n, {| users := l; products := products db |})
      | Rejected e => (Rejected e, db)
      end
  end.

(** [Model.aggregate(pipeline)]: the pipeline applied to the collection. *)
Definition aggregate {A : Type} (fault : option Error)
    (pipeline : Store → list A) (db : Store) : Promise (list A) :=
  settle fault (pipeline db).

(** ** Aggregation stages *)

(** A row after [$unwind: '$history']: the document, its [history] replaced
    by one of its elements. *)
Record Unwound := {
  u_doc : User;
  u_history : ScanEvent
}.

(** A row after the [$group] stage of the last-scan pipeline. *)
Record Grouped := {
  g_id : ObjectId;
  g_number_scan : Z;
  list_history : list ScanEvent
}.

(** A row after the [$project] stage. *)
Record Projected := {
  pr_id : ObjectId;
  pr_number_scan : Z;
  pr_history : list ScanEvent
}.

(** A row after the [$lookup] stage: an element of [dataHistory]. *)
Record LastScan := {
  ls_id : ObjectId;
  ls_number_scan : Z;
  ls_history : list ScanEvent;
  productInfo : list Product
}.

(** [{ $match: { _id: userId } }] *)
Definition match_id (userId : ObjectId) (docs : list User) : list User :=
  filter (λ u, _id u = userId) docs.

(** [{ $unwind: '$history' }]: one row per element, in order; a document
    whose history is empty gives no row. *)
Definition unwind_history (docs : list User) : list Unwound :=
  docs ≫= λ u, (λ e, {| u_doc := u; u_history := e |}) <$> history u.

(** The order of [{ $sort: { 'history.date_scan': 1 } }]. *)
Definition date_le (a b : Unwound) : Prop :=
  date_scan (u_history a) ≤ date_scan (u_history b).

(** The [$sort] stage of the engine: the rows in ascending order of the
    key. The engine does not say in which order rows of equal key come
    out, so the stage is an interface, and what is proved about the
    pipeline holds for each of its implementations. *)
Class DateSort := {
  sort_by_date : list Unwound → list Unwound;
  sort_by_date_perm : ∀ l, sort_by_date l ≡ₚ l;
  sort_by_date_sorted : ∀ l, Sorted date_le (sort_by_date l)
}.

(** [$group] reads the rows in order and keeps one accumulator per [_id]:
    [$first] is set when the group is created, [$push] appends. *)
Fixpoint push_group (r : Unwound) (gs : list Grouped) : list Grouped :=
  match gs with
  | [] =>
      [{| g_id := _id (u_doc r);
          g_number_scan := number_scan (u_doc r);
          list_history := [u_history r] |}]
  | g :: gs' =>
      if decide (g_id g = _id (u_doc r)) then
        {| g_id := g_id g;
           g_number_scan := g_number_scan g;
           list_history := list_history g ++ [u_history r] |} :: gs'
      else g :: push_group r gs'
  end.

(** [{ $group: { _id: '$_id', number_scan: { $first: '$number_scan' },
      'list-history': { $push: '$history' } } }] *)
Definition group_by_id (rows : list Unwound) : list Grouped :=
  foldl (λ gs r, push_group r gs) [] rows.

(** [{ $slice: [l, -n] }]: the last [n] elements of [l], all of [l] when it
    has fewer. *)
Definition slice_last {A : Type} (n : nat) (l : list A) : list A :=
  drop (length l - n)%nat l.

(** [{ $project: { history: { $slice: ['$list-history', -1] },
      number_scan: 1 } }] *)
Definition project_last (g : Grouped) : Projected :=
  {| pr_id := g_id g;
     pr_number_scan := g_number_scan g;
     pr_history := slice_last 1 (list_history g) |}.

(** [{ $lookup: { from: 'product', localField: 'history.product',
      foreignField: '_id', as: 'productInfo' } }]: the products whose
    [_id] is the [product] of one of the elements of [history]. *)
Definition lookup_products (ps : list Product) (evs : list ScanEvent)
    : list Product :=
  filter (λ p, p_id p ∈ product <$> evs) ps.

Definition lookup_stage (ps : list Product) (r : Projected) : LastScan :=
  {| ls_id := pr_id r;
     ls_number_scan := pr_number_scan r;
     ls_history := pr_history r;
     productInfo := lookup_products ps (pr_history r) |}.

(** The first pipeline of getStatsAndLastProduct. *)
Definition last_scan_pipeline `{!DateSort} (userId : ObjectId) (db : Store)
    : list LastScan :=
  lookup_stage (products db) <$>
    (project_last <$>
      group_by_id (sort_by_date (unwind_history (match_id userId (users db))))).

(** [{ $match: { _id: userId, 'history.date_scan': { $gte: lo, $lt: hi } } }]
    on unwound rows. *)
Definition match_today (userId : ObjectId) (lo hi : Date)
    (rows : list Unwound) : list Unwound :=
  filter (λ r, _id (u_doc r) = userId
               ∧ lo ≤ date_scan (u_history r) ∧ date_scan (u_history r) < hi)
         rows.

(** [{ $count: 'total_today' }]: one document holding the number of rows,
    and no document at all when there is no row. *)
Definition count_stage {A : Type} (rows : list A) : list Z :=
  match rows with
  | [] => []
  | _ :: _ => [Z.of_nat (length rows)]
  end.

(** The second pipeline of getStatsAndLastProduct; [lo] and [hi] are the
    two dates its [$match] stage is built with. *)
Definition today_pipeline (userId : ObjectId) (lo hi : Date) (db : Store)
    : list Z :=
  count_stage (match_today userId lo hi (unwind_history (users db))).

(** An element of the array getStatsAndLastProduct answers with. *)
Inductive StatsEntry :=
| LastScanEntry (r : LastScan)
| TotalToday (total_today : Z).

(** ** Response bodies *)

Definition strings_value (l : list string) : Value := VArr (VStr <$> l).

Definition event_value (e : ScanEvent) : Value :=
  VObj [("product", VStr (product e));
        ("date_scan", VDate (date_scan e));
        ("owner", VBool (owner e))].

Definition product_value (p : Product) : Value :=
  VObj [("_id", VStr (p_id p));
        ("brand", strings_value (brand p));
        ("categories", strings_value (categories p));
        ("packaging", strings_value (packaging p));
        ("bin", strings_value (bin p));
        ("name", VStr (name p));
        ("description", VStr (description p));
        ("img", VStr (img p));
        ("barcode", VStr (barcode p));
        ("creation_date", VDate (creation_date p))].

Definition stats_value (s : StatsEntry) : Value :=
  match s with
  | LastScanEntry r =>
      VObj [("_id", VStr (ls_id r));
            ("number_scan", VNum (ls_number_scan r));
            ("history", VArr (event_value <$> ls_history r));
            ("productInfo", VArr (product_value <$> productInfo r))]
  | TotalToday n => VObj [("total_today", VNum n)]
  end.

(** ** Requests *)

(** [req.session.user] *)
Record SessionUser := {
  userId : ObjectId;
  s_mail : string;
  s_roles : list string
}.

(** What a handler reads of [req]: [req.params.id], [req.body] (of the
    shape [B] the handler expects) and [req.session.user]. The identifiers
    of a request are well-formed: they cast to an ObjectId. *)
Record Request (B : Type) := {
  params_id : ObjectId;
  body : B;
  session_user : option SessionUser
}.
Arguments params_id {B} _.
Arguments body {B} _.
Arguments session_user {B} _.

(** The body of POST /add-product/history/:id: [req.body._id]. *)
Record ScanBody := { body_id : ObjectId }.

(** The body of POST /login. *)
Record LoginBody := { body_mail : string; body_password : string }.

(** ** addProductInHistory *)

(** [{ $push: { history: { product: idProduct, date_scan: new Date(),
      owner: false } }, $inc: { number_scan: 1 } }] on one document. *)
Definition push_scan (idProduct : ObjectId) (now : Date) (u : User) : User :=
  {| _id := _id u;
     fullname := fullname u;
     mail := mail u;
     password := password u;
     timezone := timezone u;
     registration_date := registration_date u;
     roles := roles u;
     number_scan := number_scan u + 1;
     history := history u ++
                [{| product := idProduct; date_scan := now; owner := false |}] |}.

Definition addProductInHistory (fault : option Error) (now : Date)
    (req : Request ScanBody) (db : Store) : Response * Store :=
  let idProduct := body_id (body req) in
  let '(written, db') :=
    updateOne fault (λ u, _id u = params_id req)
      (λ u, Resolved (push_scan idProduct now u)) db in
  (then_catch written
     (λ _, respond 201 (message_body "Produit scannés ajouté à l'historique"))
     (λ error, respond 400 (error_body error)),
   db').

(** ** getStatsAndLastProduct *)

(** The handler once [userId] is made: [req] carries the identifier that
    [req.params.id] casts to. [now_lo] and [now_hi] are the two readings
    of the clock the [$match] stage of the second pipeline is built from,
    in the order they are taken; [fault1] and [fault2] settle the two
    aggregations. *)
Definition getStatsAndLastProduct `{!DateSort} (tz : Z)
    (fault1 fault2 : option Error) (now_lo now_hi : Date)
    (req : Request unit) (db : Store) : Response :=
  let userId := params_id req in
  then_catch (aggregate fault1 (last_scan_pipeline userId) db)
    (λ dataHistory,
       let userHistory := dataHistory in
       then_catch
         (aggregate fault2
            (today_pipeline userId
               (setHours tz now_lo 0 0 0) (setHours tz now_hi 23 59 59)) db)
         (λ userStatsNow,
            let data := (LastScanEntry <$> userHistory)
                        ++ (TotalToday <$> userStatsNow) in
            respond 200 (VArr (stats_value <$> data)))
         (λ error, respond 404 (error_body error)))
    (λ error, respond 404 (error_body error)).

(** ** getHistoryOfUser *)

Record HistoryRow := {
  hr_id : ObjectId;
  hr_history : list ScanEvent;
  hr_productInfo : list Product
}.

Definition history_pipeline (userId : ObjectId) (db : Store) : list HistoryRow :=
  (λ u, {| hr_id := _id u;
           hr_history := history u;
           hr_productInfo := lookup_products (products db) (history u) |})
    <$> match_id userId (users db).

Definition history_value (r : HistoryRow) : Value :=
  VObj [("_id", VStr (hr_id r));
        ("history", VArr (event_value <$> hr_history r));
        ("productInfo", VArr (product_value <$> hr_productInfo r))].

(** The handler once [userId] is made: [req] carries the identifier that
    [req.params.id] casts to. *)
Definition getHistoryOfUser (fault : option Error) (req : Request unit)
    (db : Store) : Response :=
  let userId := params_id req in
  then_catch (aggregate fault (history_pipeline userId) db)
    (λ user, respond 200 (VArr (history_value <$> user)))
    (λ error, respond 404 (error_body error)).

(** ** getInformationOfUser *)

(** A document under the projection [{fullname: 1, mail: 1, timezone: 1,
    number_scan: 1, registration_date: 1}]. *)
Definition info_value (u : User) : Value :=
  VObj [("_id", VStr (_id u));
        ("fullname", VStr (fullname u));
        ("mail", VStr (mail u));
        ("timezone", VStr (timezone u));
        ("number_scan", VNum (number_scan u));
        ("registration_date", VDate (registration_date u))].

(** [res.json(user)] for the outcome of [findOne]: null when no document
    matched. *)
Definition json_of_found (user : option User) : Value :=
  from_option info_value VNull user.

Definition getInformationOfUser (fault : option Error) (req : Request unit)
    (db : Store) : Response :=
  then_catch (findOne fault (λ u, _id u = params_id req) db)
    (λ user, respond 200 (json_of_found user))
    (λ error, respond 404 (error_body error)).

(** ** editInformationOfUser *)

(** The update, once cast to the schema: the paths it sets. *)
Record UserUpdate := {
  set_id : option ObjectId;
  set_fullname : option string;
  set_mail : option string;
  set_password : option string;
  set_timezone : option string;
  set_registration_date : option Date;
  set_roles : option (list string);
  set_number_scan : option Z;
  set_history : option (list ScanEvent)
}.

(** Casts of a value to the type of a path; [None] is a cast error. *)
Definition as_string (v : Value) : option string :=
  match v with VStr s => Some s | _ => None end.

Definition as_num (v : Value) : option Z :=
  match v with VNum n => Some n | _ => None end.

Definition as_bool (v : Value) : option bool :=
  match v with VBool b => Some b | _ => None end.

Definition as_date (v : Value) : option Date :=
  match v with VDate d => Some d | VNum n => Some n | _ => None end.

Definition as_strings (v : Value) : option (list string) :=
  match v with VArr l => mapM as_string l | _ => None end.

Definition field (k : string) (fs : list (string * Value)) : option Value :=
  snd <$> head (filter (λ kv, kv.1 = k) fs).

Definition as_event (v : Value) : option ScanEvent :=
  match v with
  | VObj fs =>
      p ← field "product" fs ≫= as_string;
      d ← field "date_scan" fs ≫= as_date;
      o ← field "owner" fs ≫= as_bool;
      Some {| product := p; date_scan := d; owner := o |}
  | _ => None
  end.

Definition as_events (v : Value) : option (list ScanEvent) :=
  match v with VArr l => mapM as_event l | _ => None end.

(** The cast of one path: absent from the update, or set to a cast value. *)
Definition cast_path {A : Type} (cast : Value → option A) (k : string)
    (upd : gmap string Value) : option (option A) :=
  match upd !! k with
  | None => Some None
  | Some v => Some <$> cast v
  end.

(** The cast of an update whose keys are names of top-level paths, with
    values in the type of their path: each path of the schema it names is
    set; a key that is not a path of the schema is dropped. An update
    with an operator key or a dotted path, or with a value of another
    type that the driver would convert, is not read here as the driver
    reads it. *)
Definition cast_update (upd : gmap string Value) : option UserUpdate :=
  i ← cast_path as_string "_id" upd;
  f ← cast_path as_string "fullname" upd;
  m ← cast_path as_string "mail" upd;
  p ← cast_path as_string "password" upd;
  t ← cast_path as_string "timezone" upd;
  d ← cast_path as_date "registration_date" upd;
  r ← cast_path as_strings "roles" upd;
  n ← cast_path as_num "number_scan" upd;
  h ← cast_path as_events "history" upd;
  Some {| set_id := i; set_fullname := f; set_mail := m; set_password := p;
          set_timezone := t; set_registration_date := d; set_roles := r;
          set_number_scan := n; set_history := h |}.

(** The update applied to one document: the store refuses to give a
    document another [_id]. *)
Definition apply_set (p : UserUpdate) (u : User) : Promise User :=
  if decide (default (_id u) (set_id p) = _id u) then
    Resolved
      {| _id := default (_id u) (set_id p);
         fullname := default (fullname u) (set_fullname p);
         mail := default (mail u) (set_mail p);
         password := default (password u) (set_password p);
         timezone := default (timezone u) (set_timezone p);
         registration_date := default (registration_date u) (set_registration_date p);
         roles := default (roles u) (set_roles p);
         number_scan := default (number_scan u) (set_number_scan p);
         history := default (history u) (set_history p) |}
  else Rejected "immutable field _id".

(** [{ ...req.body, _id: req.params.id }] *)
Definition edit_update (req : Request (gmap string Value)) : gmap string Value :=
  <["_id" := VStr (params_id req)]> (body req).

Definition editInformationOfUser (fault : option Error)
    (req : Request (gmap string Value)) (db : Store) : Response * Store :=
  let '(written, db') :=
    match cast_update (edit_update req) with
    | Some p => updateOne fault (λ u, _id u = params_id req) (apply_set p) db
    | None => (Rejected "CastError", db)
    end in
  (then_catch written
     (λ _, respond 200 (message_body "Informations du profil mis à jour"))
     (λ error, respond 400 (error_body error)),
   db').

(** ** login *)

Section Login.

(** [bcrypt.compare(data, hash)]: the password hasher. *)
Variable bcrypt_compare : string → string → Promise bool.

(** The handler gives back the response and [req.session.user] as it
    leaves it. *)
Definition login (fault : option Error) (req : Request LoginBody)
    (db : Store) : Response * option SessionUser :=
  then_catch (findOne fault (λ u, mail u = body_mail (body req)) db)
    (λ found,
       match found with
       | None =>
           (respond 401 (VObj [("error", VStr "L'utilisateur n'existe pas")]),
            session_user req)
       | Some user =>
           then_catch (bcrypt_compare (body_password (body req)) (password user))
             (λ valid : bool,
                if negb valid then
                  (respond 401 (VObj [("error", VStr "Mot de passe incorrect")]),
                   session_user req)
                else
                  (respond 200
                     (VObj [("message", VStr "Utilisateur authentifié");
                            ("user", VObj [("userId", VStr (_id user));
                                           ("role", strings_value (roles user))])]),
                   Some {| userId := _id user;
                           s_mail := mail user;
                           s_roles := roles user |}))
             (λ error, (respond 500 (error_body error), session_user req))
       end)
    (λ error, (respond 500 (error_body error), session_user req)).

End Login.

(** The names of the fields of a value, at any depth. *)
Fixpoint keys (v : Value) : list string :=
  match v with
  | VArr l =>
      (fix go (l : list Value) : list string :=
         match l with
         | [] => []
         | x :: l' => keys x ++ go l'
         end) l
  | VObj fs =>
      (fix go (fs : list (string * Value)) : list string :=
         match fs with
         | [] => []
         | (k, x) :: fs' => k :: keys x ++ go fs'
         end) fs
  | _ => []
  end.

(** ** getAllUsers *)

(** [Model.find()]: every document of the collection. *)
Definition find (fault : option Error) (db : Store) : Promise (list User) :=
  settle fault (users db).

(** A whole document, as [res.json] writes it: no projection is applied. *)
Definition user_value (u : User) : Value :=
  VObj [("_id", VStr (_id u));
        ("roles", strings_value (roles u));
        ("history", VArr (event_value <$> history u));
        ("fullname", VStr (fullname u));
        ("mail", VStr (mail u));
        ("password", VStr (password u));
        ("timezone", VStr (timezone u));
        ("registration_date", VDate (registration_date u));
        ("number_scan", VNum (number_scan u))].

Definition getAllUsers (fault : option Error) (req : Request unit)
    (db : Store) : Response :=
  then_catch (find fault db)
    (λ users, respond 200 (VArr (user_value <$> users)))
    (λ error, respond 400 (error_body error)).

(** ** deleteUser *)

(** The first document that matches is removed; the count of removed
    documents comes with the new collection. *)
Fixpoint delete_first (P : User → Prop) `{!∀ u, Decision (P u)}
    (l : list User) : Z * list User :=
  match l with
  | [] => (0, [])
  | u :: l' =>
      if decide (P u) then (1, l')
      else let '(n, l'') := delete_first P l' in (n, u :: l'')
  end.

(** [Model.deleteOne(filter)]: resolves with the number of removed
    documents; a rejected call leaves the store as it was. *)
Definition deleteOne (fault : option Error) (P : User → Prop)
    `{!∀ u, Decision (P u)} (db : Store) : Promise Z * Store :=
  match fault with
  | Some e => (Rejected e, db)
  | None =>
      let '(n, l) := delete_first P (users db) in
      (Resolved n, {| users := l; products := products db |})
  end.

Definition deleteUser (fault : option Error) (req : Request unit)
    (db : Store) : Response * Store :=
  let '(deleted, db') := deleteOne fault (λ u, _id u = params_id req) db in
  (then_catch deleted
     (λ _, respond 200 (message_body "Utilisateur supprimé"))
     (λ error, respond 400 (error_body error)),
   db').

(** ** logout *)

(** How [req.session.destroy(callback)] ends: the callback gets no error,
    or it gets [err], either while [destroy] runs ([during_call]) or after
    it has returned. *)
Inductive Destroyed :=
| DestroyOk
| DestroyErr (err : Error) (during_call : bool).

(** What logout leaves: the response, if one is sent; the session user
    kept for the client; whether the cookie 'user_sid' is cleared; the
    error thrown out of the handler's reach, if any. A destroy that fails
    keeps the session. *)
Record LogoutResult := {
  lo_response : option Response;
  lo_session : option SessionUser;
  lo_cookie_cleared : bool;
  lo_uncaught : option Error
}.

Definition logout (destroyed : Destroyed) (req : Request unit) : LogoutResult :=
  match session_user req with
  | None =>
      {| lo_response :=
           Some (respond 400 (VObj [("error", VStr "Déconnexion impossible")]));
         lo_session := session_user req;
         lo_cookie_cleared := false;
         lo_uncaught := None |}
  | Some _ =>
      match destroyed with
      | DestroyOk =>
          {| lo_response :=
               Some (respond 200 (message_body "Utilisateur déconnecté"));
             lo_session := None;
             lo_cookie_cleared := true;
             lo_uncaught := None |}
      | DestroyErr err true =>
          (* the throw of the callback is caught by the handler *)
          {| lo_response := Some (respond 422 (VObj [("err", VStr err)]));
             lo_session := session_user req;
             lo_cookie_cleared := false;
             lo_uncaught := None |}
      | DestroyErr err false =>
          (* the callback throws after the try block is left *)
          {| lo_response := None;
             lo_session := session_user req;
             lo_cookie_cleared := false;
             lo_uncaught := Some err |}
      end
  end.

(** ** The router of the user routes *)

(** The methods of the requests considered. *)
Inductive Method := GET | HEAD | POST | PUT | DELETE.

#[global] Instance Method_eq_dec : EqDecision Method.
Proof. solve_decision. Defined.

(** A segment of a route path: a literal, or the parameter [:id]. *)
Inductive Seg := Lit (s : string) | Param.

(** The handlers of the controller the router mounts. *)
Inductive Handler :=
| HStats | HHistory | HAll | HInfo | HEdit | HDelete.

#[global] Instance Handler_eq_dec : EqDecision Handler.
Proof. solve_decision. Defined.

(** The routes, in the order they are registered. *)
Definition routes : list (Method * list Seg * Handler) :=
  [(GET, [Lit "stat-history"; Param], HStats);
   (GET, [Lit "history"; Param], HHistory);
   (GET, [Lit "all"], HAll);
   (GET, [Param], HInfo);
   (PUT, [Param], HEdit);
   (DELETE, [Lit "delete"; Param], HDelete)].

(** Letters of a literal segment are matched without regard to case. *)
Definition lower_ascii (c : Ascii.ascii) : Ascii.ascii :=
  let n := Ascii.N_of_ascii c in
  if bool_decide (65 ≤ n ≤ 90)%N then Ascii.ascii_of_N (n + 32) else c.

Fixpoint lower (s : string) : string :=
  match s with
  | EmptyString => EmptyString
  | String c s' => String (lower_ascii c) (lower s')
  end.

(** A route path against the segments of a request path (the path split
    at its slashes): the values of the parameters, when it matches. [:id]
    takes one segment that is not empty. The segments are taken as they
    are written: a path with a percent-escape or with a slash at its end
    is not read here as the router reads it. *)
Fixpoint match_path (pat : list Seg) (path : list string)
    : option (list string) :=
  match pat, path with
  | [], [] => Some []
  | Lit s :: pat', seg :: path' =>
      if decide (lower seg = lower s) then match_path pat' path' else None
  | Param :: pat', seg :: path' =>
      if decide (seg = "") then None
      else cons seg <$> match_path pat' path'
  | _, _ => None
  end.

(** A route registered with [router.get] also serves HEAD requests. *)
Definition serves (registered m : Method) : bool :=
  bool_decide (registered = m)
  || (bool_decide (registered = GET) && bool_decide (m = HEAD)).

(** The first route, in order, that serves the method and matches the
    path: its handler and the value of [req.params.id]. No handler of the
    controller passes the request on. *)
Fixpoint first_route (table : list (Method * list Seg * Handler))
    (m : Method) (path : list string) : option (Handler * list string) :=
  match table with
  | [] => None
  | (registered, pat, h) :: table' =>
      if serves registered m then
        match match_path pat path with
        | Some params => Some (h, params)
        | None => first_route table' m path
        end
      else first_route table' m path
  end.

Definition route (m : Method) (path : list string)
    : option (Handler * list string) :=
  first_route routes m path.

(** What the handlers take from outside the request and the store: the
    offset of local time, the outcome of their store calls and the clock
    readings. *)
Record Env := {
  env_tz : Z;
  env_fault1 : option Error;
  env_fault2 : option Error;
  env_now_lo : Date;
  env_now_hi : Date
}.

(** A request through the router: the response and the store, when a route
    takes the request. *)
Definition dispatch `{!DateSort} (env : Env) (m : Method) (path : list string)
    (payload : gmap string Value) (session : option SessionUser)
    (db : Store) : option (Response * Store) :=
  match route m path with
  | None => None
  | Some (h, params) =>
      let req {B : Type} (b : B) : Request B :=
        {| params_id := default "" (head params);
           body := b;
           session_user := session |} in
      Some
        match h with
        | HStats =>
            (getStatsAndLastProduct (env_tz env) (env_fault1 env)
               (env_fault2 env) (env_now_lo env) (env_now_hi env) (req tt) db,
             db)
        | HHistory => (getHistoryOfUser (env_fault1 env) (req tt) db, db)
        | HAll => (getAllUsers (env_fault1 env) (req tt) db, db)
        | HInfo => (getInformationOfUser (env_fault1 env) (req tt) db, db)
        | HEdit => editInformationOfUser (env_fault1 env) (req payload) db
        | HDelete => deleteUser (env_fault1 env) (req tt) db
        end
  end.

(** ** Requests as they arrive *)

(** In a request as it arrives [req.params.id] is any string, one byte
    standing for one character. [mongoose.Types.ObjectId(s)] makes an
    identifier of a string of 24 hexadecimal digits, in either letter
    case, and of a string of 12 characters, whose bytes are the
    identifier; for any other string it throws. An identifier is kept as
    its 24 digits in lower case. *)
Definition is_hex_digit (c : Ascii.ascii) : bool :=
  let n := Ascii.N_of_ascii c in
  bool_decide (48 ≤ n ≤ 57)%N || bool_decide (65 ≤ n ≤ 70)%N
  || bool_decide (97 ≤ n ≤ 102)%N.

Fixpoint all_hex (s : string) : bool :=
  match s with
  | EmptyString => true
  | String c s' => is_hex_digit c && all_hex s'
  end.

Definition hex_digit (n : N) : Ascii.ascii :=
  Ascii.ascii_of_N (if bool_decide (n < 10)%N then 48 + n else 87 + n).

Fixpoint hex_of_bytes (s : string) : string :=
  match s with
  | EmptyString => EmptyString
  | String c s' =>
      let n := Ascii.N_of_ascii c in
      String (hex_digit (n `div` 16)%N)
        (String (hex_digit (n `mod` 16)%N) (hex_of_bytes s'))
  end.

Definition ObjectId_cast (s : string) : option ObjectId :=
  if bool_decide (String.length s = 12%nat) then Some (hex_of_bytes s)
  else if bool_decide (String.length s = 24%nat) && all_hex s
       then Some (lower s)
       else None.

(** What becomes of a request: the handler answers, or it throws before
    any answer and the error is left to the application. *)
Inductive Outcome :=
| Answered (res : Response)
| Thrown (e : Error).

(** The request, its identifier once cast. *)
Definition with_id {B : Type} (req : Request B) (id : ObjectId) : Request B :=
  {| params_id := id; body := body req; session_user := session_user req |}.

Definition cast_error : Error :=
  "Argument passed in must be a single String of 12 bytes or a string of 24 hex characters".

(** getStatsAndLastProduct from its first line: the cast of
    [req.params.id] is outside any promise, so its throw reaches none of
    the [catch] branches. *)
Definition getStatsAndLastProduct_request `{!DateSort} (tz : Z)
    (fault1 fault2 : option Error) (now_lo now_hi : Date)
    (req : Request unit) (db : Store) : Outcome :=
  match ObjectId_cast (params_id req) with
  | None => Thrown cast_error
  | Some userId =>
      Answered
        (getStatsAndLastProduct tz fault1 fault2 now_lo now_hi
           (with_id req userId) db)
  end.

(** getHistoryOfUser from its first line, likewise. *)
Definition getHistoryOfUser_request (fault : option Error)
    (req : Request unit) (db : Store) : Outcome :=
  match ObjectId_cast (params_id req) with
  | None => Thrown cast_error
  | Some userId => Answered (getHistoryOfUser fault (with_id req userId) db)
  end.

(** ** Request paths and bodies the model reads as the code does *)

(** A segment of a request path that is not empty and has no
    percent-escape: the router takes it as it is written. *)
Definition percent : Ascii.ascii := Ascii.ascii_of_N 37.

Definition plain_segment (seg : string) : Prop :=
  seg ≠ "" ∧ percent ∉ String.list_ascii_of_string seg.

(** The paths of the schema, [history] apart, that an update can name at
    top level. *)
Definition plain_paths : gset string :=
  {[ "_id"; "fullname"; "mail"; "password"; "timezone";
     "registration_date"; "roles"; "number_scan" ]}.

(** ** An implementation of the [$sort] stage *)

#[global] Instance date_le_dec : RelDecision date_le.
Proof. intros a b. unfold date_le. apply _. Defined.

#[global] Instance date_le_total : Total date_le.
Proof. intros a b. unfold date_le. lia. Qed.

#[global] Instance date_le_trans : Transitive date_le.
Proof. intros a b c. unfold date_le. lia. Qed.

(** Merge sort on the key: a [$sort] stage that keeps rows of equal key in
    the order they come in. *)
Definition merge_date_sort : DateSort :=
  {| sort_by_date := merge_sort date_le;
     sort_by_date_perm := merge_sort_Permutation date_le;
     sort_by_date_sorted := Sorted_merge_sort date_le |}.

(** ** Notions the properties are stated with *)

(** The document [findOne({ _id: id })] and [updateOne({ _id: id }, ...)]
    select. *)
Definition user_by_id (id : ObjectId) (db : Store) : option User :=
  head (filter (λ u, _id u = id) (users db)).

(** The document [findOne({ mail: m })] selects. *)
Definition user_by_mail (m : string) (db : Store) : option User :=
  head (filter (λ u, mail u = m) (users db)).

(** The counter of a user agrees with the history. *)
Definition scan_invariant (u : User) : Prop :=
  number_scan u = Z.of_nat (length (history u)).

(** The event a scan request appends when it is handled at [now]. *)
Definition scan_event (now : Date) (req : Request ScanBody) : ScanEvent :=
  {| product := body_id (body req); date_scan := now; owner := false |}.

(** Scan requests handled one after the other, each at its own time and
    with a store that does not fail; the responses, and the store at the
    end. *)
Fixpoint addProductsInHistory (scans : list (Date * Request ScanBody))
    (db : Store) : list Response * Store :=
  match scans with
  | [] => ([], db)
  | (now, req) :: rest =>
      let '(res, db') := addProductInHistory None now req db in
      let '(rs, db'') := addProductsInHistory rest db' in
      (res :: rs, db'')
  end.

(** A login request is verified by [u]: the store answers, the mail
    selects [u] and the password verifies against the hash of [u]. *)
Definition verified (bcrypt_compare : string → string → Promise bool)
    (fault : option Error) (req : Request LoginBody) (db : Store)
    (u : User) : Prop :=
  fault = None
  ∧ user_by_mail (body_mail (body req)) db = Some u
  ∧ bcrypt_compare (body_password (body req)) (password u) = Resolved true.

(** ** Sample data *)

Definition sample_user (id : ObjectId) (m : string) (n : Z)
    (h : list ScanEvent) : User :=
  {| _id := id;
     fullname := "Arthur Geay";
     mail := m;
     password := "$2b$10$N9qo8uLOickgx2ZMRZoMye";
     timezone := "UTC +1";
     registration_date := 1546300800000;
     roles := ["admin"];
     number_scan := n;
     history := h |}.

Definition scan_at (p : ObjectId) (d : Date) : ScanEvent :=
  {| product := p; date_scan := d; owner := false |}.

Definition arthur_id : ObjectId := "5e3c0a1b2f4d6e8a9b0c1d2e".
Definition other_id : ObjectId := "5e3c0a1b2f4d6e8a9b0c1d2f".
Definition echalotte_id : ObjectId := "5e3bf0000000000000000001".

Definition echalotte : Product :=
  {| p_id := echalotte_id;
     brand := ["Super U"];
     categories := ["Epicerie"];
     packaging := ["Boîte en verre"];
     bin := ["verre"];
     name := "Echalotte";
     description := "Echalotte en poudre";
     img := "http://google.com";
     barcode := "54346434664223";
     creation_date := 1580947200000 |}.

(** 2020-02-06 00:00:00.000 and 12:00:00.500 of the same day, UTC. *)
Definition midnight_feb6 : Date := 1580947200000.
Definition noon_feb6 : Date := 1580990400500.

Definition get_request (id : ObjectId) : Request unit :=
  {| params_id := id; body := tt; session_user := None |}.

Definition scan_request (id p : ObjectId) : Request ScanBody :=
  {| params_id := id; body := {| body_id := p |}; session_user := None |}.

Definition store_of (l : list User) : Store :=
  {| users := l; products := [echalotte] |}.

(** A user with one scan, at midnight. *)
Definition midnight_store : Store :=
  store_of [sample_user arthur_id "arthur.geay@ynov.com" 1
              [scan_at echalotte_id midnight_feb6]].

(** A user with four scans, the two latest at the same time. *)
Definition busy_store : Store :=
  store_of [sample_user other_id "o@ynov.com" 0 [];
            sample_user arthur_id "arthur.geay@ynov.com" 4
              [scan_at echalotte_id 30; scan_at other_id 70;
               scan_at echalotte_id 70; scan_at echalotte_id 10]].

(** A user who has not scanned anything yet. *)
Definition fresh_store : Store :=
  store_of [sample_user arthur_id "arthur.geay@ynov.com" 0 []].

(** A hasher for the sample data: the hash of a password is the password
    after the prefix of the scheme. *)
Definition sample_compare (data hash : string) : Promise bool :=
  Resolved (bool_decide (hash = String.append "$2b$10$" data)).

Definition login_request (m pw : string) : Request LoginBody :=
  {| params_id := "";
     body := {| body_mail := m; body_password := pw |};
     session_user := None |}.

Definition arthur_two_scans : User :=
  sample_user arthur_id "arthur.geay@ynov.com" 2
    [scan_at echalotte_id midnight_feb6; scan_at other_id noon_feb6].

(** A user with two scans on one day, at midnight and at 12:00:00.500. *)
Definition two_scans_store : Store := store_of [arthur_two_scans].

(** The same user, among others. *)
Definition crowded_store : Store :=
  store_of [sample_user other_id "o@ynov.com" 1 [scan_at echalotte_id 5];
            arthur_two_scans].

Definition arthur_session : SessionUser :=
  {| userId := arthur_id;
     s_mail := "arthur.geay@ynov.com";
     s_roles := ["admin"] |}.

Definition edit_request (id : ObjectId) (b : gmap string Value)
    : Request (gmap string Value) :=
  {| params_id := id; body := b; session_user := None |}.

Definition quiet_env : Env :=
  {| env_tz := 0;
     env_fault1 := None;
     env_fault2 := None;
     env_now_lo := noon_feb6;
     env_now_hi := noon_feb6 |}.

(** * Properties *)

(** ** Lists and collections *)

Lemma filter_none {A : Type} (P : A → Prop) `{!∀ x, Decision (P x)}
    (l : list A) :
  (∀ x, x ∈ l → ¬ P x) → filter P l = [].
Proof.
  induction l as [|x l IH]; intros Hno; [done|].
  rewrite filter_cons_False by (apply Hno, list_elem_of_here).
  apply IH. intros y Hy. by apply Hno, list_elem_of_further.
Qed.

(** In a collection where [key] is unique, the documents with the key of
    [u] are [u] alone. *)
Lemma filter_unique_key {A B : Type} `{!EqDecision B} (key : A → B)
    (l : list A) (u : A) :
  NoDup (key <$> l) → u ∈ l → filter (λ x, key x = key u) l = [u].
Proof.
  induction l as [|x l IH]; intros Hnd Hin.
  - by apply elem_of_nil in Hin.
  - rewrite fmap_cons in Hnd. apply NoDup_cons in Hnd as [Hx Hnd].
    rewrite filter_cons. apply elem_of_cons in Hin as [->|Hin].
    + rewrite decide_True by done. f_equal.
      apply filter_none. intros y Hy Heq.
      apply Hx. rewrite <- Heq. by apply list_elem_of_fmap_2.
    + rewrite decide_False; [by apply IH|].
      intros Heq. apply Hx. rewrite Heq. by apply list_elem_of_fmap_2.
Qed.

(** No document has the key: the filter is empty. *)
Lemma filter_no_key {A B : Type} `{!EqDecision B} (key : A → B)
    (l : list A) (k : B) :
  (∀ x, x ∈ l → key x ≠ k) → filter (λ x, key x = k) l = [].
Proof.
  intros Hno. by apply filter_none.
Qed.

Lemma slice_last_snoc {A : Type} (l : list A) (x : A) :
  slice_last 1 (l ++ [x]) = [x].
Proof.
  unfold slice_last. rewrite length_app. simpl.
  replace (length l + 1 - 1)%nat with (length l) by lia.
  by rewrite drop_app_length.
Qed.

Lemma slice_last_nil {A : Type} (n : nat) : slice_last n (@nil A) = [].
Proof. done. Qed.

(** ** The stages of the last-scan pipeline *)

Lemma unwind_history_nil : unwind_history [] = [].
Proof. done. Qed.

Lemma unwind_history_cons (u : User) (docs : list User) :
  unwind_history (u :: docs)
  = ((λ e, {| u_doc := u; u_history := e |}) <$> history u) ++ unwind_history docs.
Proof. done. Qed.

Lemma unwind_history_one (u : User) :
  unwind_history [u] = (λ e, {| u_doc := u; u_history := e |}) <$> history u.
Proof. rewrite unwind_history_cons, unwind_history_nil. apply app_nil_r. Qed.

(** Documents without history give no row. *)
Lemma unwind_history_empty (docs : list User) :
  (∀ u, u ∈ docs → history u = []) → unwind_history docs = [].
Proof.
  induction docs as [|u docs IH]; intros H; [done|].
  rewrite unwind_history_cons, (H u) by apply list_elem_of_here.
  simpl. apply IH. intros v Hv. apply H. by apply list_elem_of_further.
Qed.

Lemma elem_of_unwind_history (r : Unwound) (docs : list User) :
  r ∈ unwind_history docs ↔ u_doc r ∈ docs ∧ u_history r ∈ history (u_doc r).
Proof.
  unfold unwind_history. rewrite list_elem_of_bind. split.
  - intros (u & Hr & Hu). apply list_elem_of_fmap in Hr as (e & -> & He).
    by simpl.
  - intros [Hu He]. exists (u_doc r). split; [|done].
    apply list_elem_of_fmap. exists (u_history r). by destruct r.
Qed.

(** Rows of one group are pushed on its accumulator, in order. *)
Lemma foldl_push_group_same (g : Grouped) (rows : list Unwound) :
  Forall (λ r, _id (u_doc r) = g_id g) rows →
  foldl (λ gs r, push_group r gs) [g] rows
  = [{| g_id := g_id g;
        g_number_scan := g_number_scan g;
        list_history := list_history g ++ (u_history <$> rows) |}].
Proof.
  revert g. induction rows as [|r rows IH]; intros g Hall.
  - simpl. rewrite app_nil_r. by destruct g.
  - apply Forall_cons in Hall as [Hr Hall]. simpl.
    rewrite decide_True by done. rewrite IH by done. simpl.
    by rewrite <- app_assoc.
Qed.

Lemma group_by_id_nil : group_by_id [] = [].
Proof. done. Qed.

(** The rows of one document make one group: its [number_scan], and the
    elements in the order of the rows. *)
Lemma group_by_id_one_doc (u : User) (rows : list Unwound) :
  rows ≠ [] → Forall (λ r, u_doc r = u) rows →
  group_by_id rows
  = [{| g_id := _id u;
        g_number_scan := number_scan u;
        list_history := u_history <$> rows |}].
Proof.
  destruct rows as [|r rows]; [done|]. intros _ Hall.
  apply Forall_cons in Hall as [Hr Hall].
  unfold group_by_id. simpl. rewrite foldl_push_group_same; simpl.
  - by rewrite Hr.
  - eapply Forall_impl; [exact Hall|]. intros r' Hr'. simpl in *. congruence.
Qed.

Section Sorting.
Context `{!DateSort}.

Lemma sort_by_date_nil : sort_by_date [] = [].
Proof. apply Permutation_nil_r, sort_by_date_perm. Qed.

Lemma elem_of_sort_by_date (r : Unwound) (l : list Unwound) :
  r ∈ sort_by_date l ↔ r ∈ l.
Proof. by rewrite sort_by_date_perm. Qed.

(** The last row of the sorted rows carries a greatest date. *)
Lemma sort_by_date_last (l init : list Unwound) (r : Unwound) :
  sort_by_date l = init ++ [r] → ∀ r', r' ∈ l → date_le r' r.
Proof.
  intros Heq r' Hr'.
  pose proof (sort_by_date_sorted l) as Hs. rewrite Heq in Hs.
  apply (Sorted_StronglySorted date_le) in Hs.
  apply (proj2 (elem_of_sort_by_date _ _)) in Hr'. rewrite Heq in Hr'.
  apply elem_of_app in Hr' as [Hr'|Hr'].
  - eapply (StronglySorted_app_1_elem_of date_le); [exact Hs|exact Hr'|].
    apply list_elem_of_here.
  - apply list_elem_of_singleton in Hr' as ->. unfold date_le. lia.
Qed.
End Sorting.

Lemma snoc_cases {A : Type} (l : list A) :
  l = [] ∨ ∃ init x, l = init ++ [x].
Proof.
  induction l as [|y l [->|(init & x & ->)]]; [by left| |]; right.
  - by exists [], y.
  - by exists (y :: init), x.
Qed.

(** ** getStatsAndLastProduct *)

Section Stats.
Context `{!DateSort}.

(** The first pipeline gives no row for an identifier that no document
    with a history carries. *)
Lemma last_scan_pipeline_no_history (userId : ObjectId) (db : Store) :
  (∀ u, u ∈ users db → _id u = userId → history u = []) →
  last_scan_pipeline userId db = [].
Proof.
  intros Hno. unfold last_scan_pipeline.
  rewrite unwind_history_empty, sort_by_date_nil; [done|].
  intros u Hu. apply list_elem_of_filter in Hu as [Hid Hu]. by apply Hno.
Qed.

(** Neither does the second, whatever the dates. *)
Lemma today_pipeline_no_history (userId : ObjectId) (lo hi : Date) (db : Store) :
  (∀ u, u ∈ users db → _id u = userId → history u = []) →
  today_pipeline userId lo hi db = [].
Proof.
  intros Hno. unfold today_pipeline, match_today.
  rewrite filter_none; [done|].
  intros r Hr (Hid & _). apply elem_of_unwind_history in Hr as [Hu He].
  rewrite (Hno _ Hu Hid) in He. by apply elem_of_nil in He.
Qed.

(** For the one document of a user with a history, the first pipeline
    gives one row: the last of the sorted events, which is an event of
    the history of greatest date. *)
Lemma last_scan_pipeline_latest (db : Store) (u : User) :
  NoDup (_id <$> users db) → u ∈ users db → history u ≠ [] →
  ∃ e,
    last (u_history <$>
            sort_by_date (unwind_history (match_id (_id u) (users db)))) = Some e
    ∧ last_scan_pipeline (_id u) db
      = [{| ls_id := _id u;
            ls_number_scan := number_scan u;
            ls_history := [e];
            productInfo := lookup_products (products db) [e] |}]
    ∧ e ∈ history u
    ∧ ∀ e', e' ∈ history u → date_scan e' ≤ date_scan e.
Proof.
  intros Hnd Hu Hne. unfold last_scan_pipeline, match_id.
  rewrite (filter_unique_key _id) by done.
  set (rows := unwind_history [u]).
  assert (Hrows : ∀ r, r ∈ rows ↔ u_doc r = u ∧ u_history r ∈ history u).
  { intros r. unfold rows. rewrite elem_of_unwind_history.
    rewrite list_elem_of_singleton. split; [by intros [-> ?]|].
    intros [Heq ?]. by rewrite Heq. }
  destruct (snoc_cases (sort_by_date rows)) as [Hnil|(init & r & Hs)].
  { exfalso. apply Hne.
    assert (rows = []) as Hr.
    { apply Permutation_nil_r. rewrite <- (sort_by_date_perm rows). by rewrite Hnil. }
    unfold rows in Hr. rewrite unwind_history_one in Hr.
    by apply fmap_nil_inv in Hr. }
  assert (Hr : r ∈ rows).
  { apply (proj1 (elem_of_sort_by_date _ _)). rewrite Hs. apply elem_of_app. right.
    apply list_elem_of_here. }
  apply Hrows in Hr as [Hdoc Hev].
  exists (u_history r). split; [|split; [|split]].
  - by rewrite Hs, fmap_last, last_snoc.
  - rewrite (group_by_id_one_doc u).
    + rewrite Hs, fmap_app. simpl. unfold project_last, lookup_stage. simpl.
      by rewrite slice_last_snoc.
    + rewrite Hs. by destruct init.
    + apply Forall_forall. intros r' Hr'.
      apply (proj1 (elem_of_sort_by_date _ _)) in Hr'.
      by apply Hrows in Hr' as [? _].
  - done.
  - intros e' He'.
    apply (sort_by_date_last rows init r Hs {| u_doc := u; u_history := e' |}).
    by apply Hrows.
Qed.
End Stats.

(** ** addProductInHistory *)

Lemma update_first_no_match (P : User → Prop) `{!∀ u, Decision (P u)}
    (upd : User → Promise User) (l : list User) :
  filter P l = [] → update_first P upd l = Resolved (0, l).
Proof.
  induction l as [|u l IH]; intros Hf; [done|]. simpl.
  rewrite filter_cons in Hf. destruct (decide (P u)); [done|].
  by rewrite IH.
Qed.

Lemma update_first_match (P : User → Prop) `{!∀ u, Decision (P u)}
    (f : User → User) (l : list User) (u : User) :
  (∀ v, P v → P (f v)) →
  head (filter P l) = Some u →
  ∃ l', update_first P (λ v, Resolved (f v)) l = Resolved (1, l')
        ∧ head (filter P l') = Some (f u).
Proof.
  intros Hf. induction l as [|v l IH]; intros Hu; [done|]. simpl.
  rewrite filter_cons in Hu. destruct (decide (P v)) as [Hv|Hv].
  - simpl in Hu. injection Hu as ->. eexists. split; [done|].
    by rewrite filter_cons_True by auto.
  - destruct (IH Hu) as (l' & -> & Hl'). eexists. split; [done|].
    by rewrite filter_cons_False.
Qed.

Lemma store_eta (db : Store) :
  {| users := users db; products := products db |} = db.
Proof. by destruct db. Qed.

(** One scan of an existing user: acknowledged, and the document of the
    user is the one the update describes. *)
Lemma addProductInHistory_found (now : Date) (req : Request ScanBody)
    (db : Store) (u : User) :
  user_by_id (params_id req) db = Some u →
  ∃ db',
    addProductInHistory None now req db
    = (respond 201 (message_body "Produit scannés ajouté à l'historique"), db')
    ∧ user_by_id (params_id req) db'
      = Some (push_scan (body_id (body req)) now u).
Proof.
  intros Hu. unfold addProductInHistory, updateOne.
  destruct (update_first_match (λ v, _id v = params_id req)
              (push_scan (body_id (body req)) now) (users db) u)
    as (l' & -> & Hl'); [done|exact Hu|].
  eexists. split; [done|]. exact Hl'.
Qed.

(** A scan for an identifier that no document carries: acknowledged all
    the same, and nothing is written. *)
Lemma addProductInHistory_absent (now : Date) (req : Request ScanBody)
    (db : Store) :
  user_by_id (params_id req) db = None →
  addProductInHistory None now req db
  = (respond 201 (message_body "Produit scannés ajouté à l'historique"), db).
Proof.
  intros Hu. unfold addProductInHistory, updateOne.
  rewrite update_first_no_match.
  - simpl. by rewrite store_eta.
  - unfold user_by_id in Hu. by destruct (filter _ (users db)).
Qed.

(** A rejected write: answered with 400, and nothing is written. *)
Lemma addProductInHistory_rejected (e : Error) (now : Date)
    (req : Request ScanBody) (db : Store) :
  addProductInHistory (Some e) now req db = (respond 400 (error_body e), db).
Proof. done. Qed.

(** ** The today count *)

(** The rows of one document that the [$match] stage of the second
    pipeline keeps. *)
Lemma match_today_doc (userId : ObjectId) (lo hi : Date) (u : User)
    (h : list ScanEvent) :
  match_today userId lo hi ((λ e, {| u_doc := u; u_history := e |}) <$> h)
  = if decide (_id u = userId)
    then (λ e, {| u_doc := u; u_history := e |})
           <$> filter (λ e, lo ≤ date_scan e ∧ date_scan e < hi) h
    else [].
Proof.
  unfold match_today. induction h as [|e h IH]; [by destruct (decide _)|].
  rewrite fmap_cons, !filter_cons, IH. simpl.
  destruct (decide (_id u = userId)) as [Hid|Hid].
  - destruct (decide (lo ≤ date_scan e ∧ date_scan e < hi)) as [Hw|Hw].
    + by rewrite decide_True by done.
    + rewrite decide_False; [done|]. intros [_ ?]. by apply Hw.
  - rewrite decide_False; [done|]. by intros [? _].
Qed.

(** With unique identifiers, the second pipeline counts the events of the
    user whose date is at least [lo] and less than [hi]. *)
Lemma today_pipeline_counts (lo hi : Date) (db : Store) (u : User) :
  NoDup (_id <$> users db) → u ∈ users db →
  today_pipeline (_id u) lo hi db
  = count_stage (filter (λ e, lo ≤ date_scan e ∧ date_scan e < hi) (history u)).
Proof.
  intros Hnd Hu. unfold today_pipeline.
  assert (match_today (_id u) lo hi (unwind_history (users db))
          = (λ e, {| u_doc := u; u_history := e |})
              <$> filter (λ e, lo ≤ date_scan e ∧ date_scan e < hi) (history u))
    as ->.
  { induction (users db) as [|v l IH]; [by apply elem_of_nil in Hu|].
    rewrite fmap_cons in Hnd. apply NoDup_cons in Hnd as [Hv Hnd].
    rewrite unwind_history_cons. unfold match_today at 1.
    rewrite filter_app. fold (match_today (_id u) lo hi (unwind_history l)).
    fold (match_today (_id u) lo hi
            ((λ e, {| u_doc := v; u_history := e |}) <$> history v)).
    rewrite match_today_doc.
    apply elem_of_cons in Hu as [<-|Hu].
    - rewrite decide_True by done.
      assert (match_today (_id u) lo hi (unwind_history l) = []) as ->;
        [|by rewrite app_nil_r].
      apply filter_none.
      intros r Hr (Hid & _). apply elem_of_unwind_history in Hr as [Hr _].
      apply Hv. rewrite <- Hid. by apply list_elem_of_fmap_2.
    - rewrite decide_False; [by apply IH|].
      intros Hid. apply Hv. rewrite Hid. by apply list_elem_of_fmap_2. }
  destruct (filter _ (history u)) as [|e h]; [done|].
  simpl. by rewrite length_fmap.
Qed.

(** ** The window of the today count *)

(** The lower bound of the window is local midnight plus the milliseconds
    of the clock reading. *)
Lemma setHours_start (tz : Z) (d : Date) :
  setHours tz d 0 0 0 = local_midnight tz d + (d + tz) `mod` 1000.
Proof. unfold setHours, local_midnight. lia. Qed.

(** The upper bound is 23:59:59 plus the milliseconds of the reading. *)
Lemma setHours_end (tz : Z) (d : Date) :
  setHours tz d 23 59 59
  = local_midnight tz d + 86399000 + (d + tz) `mod` 1000.
Proof. unfold setHours, local_midnight. lia. Qed.

(** Unless the clock is read on a whole second, local midnight itself is
    before the window. *)
Lemma midnight_before_window (tz : Z) (d : Date) :
  (d + tz) `mod` 1000 ≠ 0 → local_midnight tz d < setHours tz d 0 0 0.
Proof.
  intros Hms. rewrite setHours_start.
  pose proof (Z.mod_pos_bound (d + tz) 1000). lia.
Qed.

(** The last millisecond of the second 23:59:59 is never in the window. *)
Lemma last_millisecond_after_window (tz : Z) (d : Date) :
  setHours tz d 23 59 59 ≤ local_midnight tz d + 86399999.
Proof.
  rewrite setHours_end. pose proof (Z.mod_pos_bound (d + tz) 1000). lia.
Qed.

(** ** The claims on getStatsAndLastProduct *)

Section StatsClaims.
Context `{!DateSort}.

(** C1. For a user with a history, the first element of the merged
    response is the last-scan entry: its history is the one event left
    by sorting the events by date, regrouping them and keeping the last;
    this event is an event of the user whose date no event of the user
    exceeds, and the entry is followed by the today count. *)
Theorem last_scan_is_latest (tz : Z) (now_lo now_hi : Date)
    (req : Request unit) (db : Store) (u : User) :
  NoDup (_id <$> users db) → u ∈ users db → _id u = params_id req →
  history u ≠ [] →
  ∃ e,
    last (u_history <$>
            sort_by_date
              (unwind_history (match_id (params_id req) (users db)))) = Some e
    ∧ getStatsAndLastProduct tz None None now_lo now_hi req db
      = respond 200
          (VArr (stats_value <$>
             LastScanEntry
               {| ls_id := _id u;
                  ls_number_scan := number_scan u;
                  ls_history := [e];
                  productInfo := lookup_products (products db) [e] |}
             :: (TotalToday <$>
                   today_pipeline (params_id req)
                     (setHours tz now_lo 0 0 0)
                     (setHours tz now_hi 23 59 59) db)))
    ∧ e ∈ history u
    ∧ ∀ e', e' ∈ history u → date_scan e' ≤ date_scan e.
Proof.
  intros Hnd Hu Hid Hne.
  destruct (last_scan_pipeline_latest db u Hnd Hu Hne)
    as (e & Hlast & Hpipe & He & Hmax).
  exists e. unfold getStatsAndLastProduct, aggregate. rewrite <- Hid.
  split; [exact Hlast|]. split; [|by split].
  rewrite Hpipe. reflexivity.
Qed.

(** Once the identifier is cast: when no user carries it, both pipelines
    are empty and the answer is a success whose data set is empty. *)
Lemma getStatsAndLastProduct_unknown (tz : Z) (now_lo now_hi : Date)
    (req : Request unit) (db : Store) :
  (∀ u, u ∈ users db → _id u ≠ params_id req) →
  getStatsAndLastProduct tz None None now_lo now_hi req db
  = respond 200 (VArr []).
Proof.
  intros Hno. unfold getStatsAndLastProduct, aggregate. simpl.
  rewrite last_scan_pipeline_no_history, today_pipeline_no_history;
    [done| |]; intros u Hu Hid; by destruct (Hno u Hu).
Qed.

(** C6, as the code has it. For a request whose [req.params.id] casts to
    an identifier that no user carries, the answer is a success, 200,
    whose data set is empty; for a request whose [req.params.id] does not
    cast, the handler throws before it queries the store and gives no
    answer of its own, whatever the store would do. *)
Theorem stats_of_unknown_user (tz : Z) (now_lo now_hi : Date)
    (req : Request unit) (db : Store) :
  (∀ id, ObjectId_cast (params_id req) = Some id →
         (∀ u, u ∈ users db → _id u ≠ id) →
         getStatsAndLastProduct_request tz None None now_lo now_hi req db
         = Answered (respond 200 (VArr [])))
  ∧ (ObjectId_cast (params_id req) = None →
     ∀ fault1 fault2,
       getStatsAndLastProduct_request tz fault1 fault2 now_lo now_hi req db
       = Thrown cast_error).
Proof.
  unfold getStatsAndLastProduct_request. split.
  - intros id -> Hno. f_equal. by apply getStatsAndLastProduct_unknown.
  - by intros ->.
Qed.

(** C7. For a user whose history is empty, the answer has no last-scan
    element and no count entry. *)
Theorem stats_of_empty_history (tz : Z) (now_lo now_hi : Date)
    (req : Request unit) (db : Store) (u : User) :
  NoDup (_id <$> users db) → u ∈ users db → _id u = params_id req →
  history u = [] →
  getStatsAndLastProduct tz None None now_lo now_hi req db
  = respond 200 (VArr []).
Proof.
  intros Hnd Hu Hid Hh. unfold getStatsAndLastProduct, aggregate. simpl.
  assert (Hall : ∀ v, v ∈ users db → _id v = params_id req → history v = []).
  { intros v Hv Hvid.
    assert (v ∈ filter (λ x, _id x = _id u) (users db)) as Hin.
    { apply list_elem_of_filter. split; [congruence|done]. }
    rewrite (filter_unique_key _id) in Hin by done.
    by apply list_elem_of_singleton in Hin as ->. }
  by rewrite last_scan_pipeline_no_history, today_pipeline_no_history.
Qed.
End StatsClaims.

Lemma last_scan_is_latest_witness :
  ∃ e,
    last (u_history <$>
            @sort_by_date merge_date_sort
              (unwind_history (match_id arthur_id (users busy_store)))) = Some e
    ∧ @getStatsAndLastProduct merge_date_sort 0 None None noon_feb6 noon_feb6
        (get_request arthur_id) busy_store
      = respond 200
          (VArr (stats_value <$>
             LastScanEntry
               {| ls_id := arthur_id;
                  ls_number_scan := 4;
                  ls_history := [e];
                  productInfo := lookup_products (products busy_store) [e] |}
             :: (TotalToday <$>
                   today_pipeline arthur_id
                     (setHours 0 noon_feb6 0 0 0)
                     (setHours 0 noon_feb6 23 59 59) busy_store)))
    ∧ e ∈ [scan_at echalotte_id 30; scan_at other_id 70;
           scan_at echalotte_id 70; scan_at echalotte_id 10]
    ∧ ∀ e', e' ∈ [scan_at echalotte_id 30; scan_at other_id 70;
                  scan_at echalotte_id 70; scan_at echalotte_id 10] →
            date_scan e' ≤ date_scan e.
Proof.
  apply (@last_scan_is_latest merge_date_sort 0 noon_feb6 noon_feb6
           (get_request arthur_id) busy_store
           (sample_user arthur_id "arthur.geay@ynov.com" 4
              [scan_at echalotte_id 30; scan_at other_id 70;
               scan_at echalotte_id 70; scan_at echalotte_id 10])).
  - apply (bool_decide_unpack _). vm_compute. exact I.
  - apply list_elem_of_further, list_elem_of_here.
  - reflexivity.
  - discriminate.
Defined.

Lemma stats_of_unknown_user_witness :
  @getStatsAndLastProduct_request merge_date_sort 3600000 None None
    noon_feb6 noon_feb6 (get_request "5E3C0A1B2F4D6E8A9B0C1D2F") midnight_store
  = Answered (respond 200 (VArr [])).
Proof.
  apply (proj1 (@stats_of_unknown_user merge_date_sort 3600000
                  noon_feb6 noon_feb6
                  (get_request "5E3C0A1B2F4D6E8A9B0C1D2F") midnight_store)
           other_id).
  - vm_compute. reflexivity.
  - intros u Hu. apply list_elem_of_singleton in Hu as ->. discriminate.
Defined.

(** C6, as stated, fails: no user carries the identifier "abc", and the
    request is not answered with an empty data set: the cast of the
    identifier throws. *)
Lemma stats_of_malformed_id_throws :
  (∀ u, u ∈ users midnight_store → _id u ≠ "abc")
  ∧ @getStatsAndLastProduct_request merge_date_sort 0 None None
      noon_feb6 noon_feb6 (get_request "abc") midnight_store
    = Thrown cast_error
  ∧ @getStatsAndLastProduct_request merge_date_sort 0 None None
      noon_feb6 noon_feb6 (get_request "abc") midnight_store
    ≠ Answered (respond 200 (VArr [])).
Proof.
  split; [|split].
  - intros u Hu. apply list_elem_of_singleton in Hu as ->. discriminate.
  - vm_compute. reflexivity.
  - vm_compute. discriminate.
Qed.

Lemma stats_of_empty_history_witness :
  @getStatsAndLastProduct merge_date_sort 3600000 None None noon_feb6 noon_feb6
    (get_request arthur_id) fresh_store
  = respond 200 (VArr []).
Proof.
  apply (@stats_of_empty_history merge_date_sort 3600000 noon_feb6 noon_feb6
           (get_request arthur_id) fresh_store
           (sample_user arthur_id "arthur.geay@ynov.com" 0 [])).
  - apply (bool_decide_unpack _). vm_compute. exact I.
  - apply list_elem_of_here.
  - reflexivity.
  - reflexivity.
Defined.

(** C2. At 12:00:00.500 the today count misses a scan made at 00:00:00 of
    the same day: the window starts at 00:00:00.500, the answer holds the
    last-scan entry and no count entry. *)
Theorem today_count_misses_midnight :
  same_local_day 0 midnight_feb6 noon_feb6
  ∧ midnight_feb6 = local_midnight 0 noon_feb6
  ∧ setHours 0 noon_feb6 0 0 0 = midnight_feb6 + 500
  ∧ today_pipeline arthur_id
      (setHours 0 noon_feb6 0 0 0) (setHours 0 noon_feb6 23 59 59)
      midnight_store = []
  ∧ @getStatsAndLastProduct merge_date_sort 0 None None noon_feb6 noon_feb6
      (get_request arthur_id) midnight_store
    = respond 200
        (VArr [stats_value
                 (LastScanEntry
                    {| ls_id := arthur_id;
                       ls_number_scan := 1;
                       ls_history := [scan_at echalotte_id midnight_feb6];
                       productInfo := [echalotte] |})]).
Proof. repeat split; vm_compute; reflexivity. Qed.

(** ** The claims on addProductInHistory *)

Lemma push_scan_invariant (p : ObjectId) (now : Date) (u : User) :
  scan_invariant u → scan_invariant (push_scan p now u).
Proof.
  unfold scan_invariant. simpl. rewrite length_app. simpl. lia.
Qed.

(** C3. Scans of one user, handled one after the other: each is
    acknowledged with 201; the document of the user ends with the events
    of the scans appended to its history, in order, each with [owner]
    false, and with [number_scan] raised by their number; so the counter
    still agrees with the history when it did before, and from an empty
    history and a counter at zero both are the number of scans. *)
Theorem append_scans_keep_invariant (id : ObjectId)
    (scans : list (Date * Request ScanBody)) (db : Store) (u : User) :
  user_by_id id db = Some u →
  Forall (λ s, params_id s.2 = id) scans →
  ∃ u',
    user_by_id id (addProductsInHistory scans db).2 = Some u'
    ∧ Forall (λ r, status r = 201) (addProductsInHistory scans db).1
    ∧ length (addProductsInHistory scans db).1 = length scans
    ∧ history u' = history u ++ ((λ s, scan_event s.1 s.2) <$> scans)
    ∧ number_scan u' = number_scan u + Z.of_nat (length scans)
    ∧ (scan_invariant u → scan_invariant u')
    ∧ (history u = [] → number_scan u = 0 →
       number_scan u' = Z.of_nat (length scans)
       ∧ length (history u') = length scans).
Proof.
  intros Hu Hall.
  assert (∃ u',
    user_by_id id (addProductsInHistory scans db).2 = Some u'
    ∧ Forall (λ r, status r = 201) (addProductsInHistory scans db).1
    ∧ length (addProductsInHistory scans db).1 = length scans
    ∧ history u' = history u ++ ((λ s, scan_event s.1 s.2) <$> scans)
    ∧ number_scan u' = number_scan u + Z.of_nat (length scans))
    as (u' & Hu' & Hres & Hlen & Hh & Hn).
  { revert db u Hu.
    induction Hall as [|[now req] scans Hreq Hall IH]; intros db u Hu.
    - exists u. simpl. rewrite app_nil_r.
      repeat split; [done|constructor|lia].
    - simpl in Hreq. subst id.
      destruct (addProductInHistory_found now req db u Hu) as (db' & Hstep & Hu').
      simpl. rewrite Hstep.
      destruct (IH db' _ Hu') as (u'' & Hu'' & Hres & Hlen & Hh & Hn).
      destruct (addProductsInHistory scans db') as [rs db''] eqn:Hrun.
      simpl in *. exists u''. repeat split.
      + done.
      + by constructor.
      + by rewrite Hlen.
      + rewrite Hh. by rewrite <- app_assoc.
      + rewrite Hn. lia. }
  exists u'. do 5 (split; [done|]). split.
  - unfold scan_invariant. intros Hinv.
    rewrite Hn, Hh, Hinv, length_app, length_fmap. lia.
  - intros Hnil Hzero. split.
    + rewrite Hn, Hzero. lia.
    + rewrite Hh, Hnil. simpl. by rewrite length_fmap.
Qed.

Lemma append_scans_keep_invariant_witness :
  ∃ u',
    user_by_id arthur_id
      (addProductsInHistory
         [(10, scan_request arthur_id echalotte_id);
          (20, scan_request arthur_id other_id);
          (20, scan_request arthur_id echalotte_id)] fresh_store).2 = Some u'
    ∧ number_scan u' = 3
    ∧ length (history u') = 3%nat.
Proof.
  destruct (append_scans_keep_invariant arthur_id
              [(10, scan_request arthur_id echalotte_id);
               (20, scan_request arthur_id other_id);
               (20, scan_request arthur_id echalotte_id)]
              fresh_store
              (sample_user arthur_id "arthur.geay@ynov.com" 0 []))
    as (u' & Hu' & _ & _ & _ & _ & _ & Hfresh).
  - reflexivity.
  - repeat constructor.
  - exists u'. split; [exact Hu'|]. apply Hfresh; reflexivity.
Defined.

(** C4, as the code has it. A scan request fails, with 400, when the
    write is rejected, and nothing is written then; when no user carries
    the identifier and the write is not rejected, the request is
    acknowledged with 201 and the store is left as it was. *)
Theorem scan_of_unknown_user_acknowledged (now : Date)
    (req : Request ScanBody) (db : Store) :
  (∀ u, u ∈ users db → _id u ≠ params_id req) →
  addProductInHistory None now req db
  = (respond 201 (message_body "Produit scannés ajouté à l'historique"), db)
  ∧ ∀ e, addProductInHistory (Some e) now req db
         = (respond 400 (error_body e), db).
Proof.
  intros Hno. split; [|done].
  apply addProductInHistory_absent. unfold user_by_id.
  by rewrite filter_no_key.
Qed.

Lemma scan_of_unknown_user_acknowledged_witness :
  addProductInHistory None noon_feb6 (scan_request other_id echalotte_id)
    fresh_store
  = (respond 201 (message_body "Produit scannés ajouté à l'historique"),
     fresh_store)
  ∧ ∀ e, addProductInHistory (Some e) noon_feb6
           (scan_request other_id echalotte_id) fresh_store
         = (respond 400 (error_body e), fresh_store).
Proof.
  apply (scan_of_unknown_user_acknowledged noon_feb6
           (scan_request other_id echalotte_id) fresh_store).
  intros u Hu. apply list_elem_of_singleton in Hu as ->. discriminate.
Defined.

(** C4, as stated, fails: no user carries the identifier, the write is
    not rejected, and the answer is the acknowledgement, not an error. *)
Lemma scan_of_unknown_user_not_refused :
  user_by_id other_id fresh_store = None
  ∧ (addProductInHistory None noon_feb6
       (scan_request other_id echalotte_id) fresh_store).1
    = respond 201 (message_body "Produit scannés ajouté à l'historique")
  ∧ status (addProductInHistory None noon_feb6
              (scan_request other_id echalotte_id) fresh_store).1 ≠ 400.
Proof. repeat split. vm_compute. discriminate. Qed.

(** ** The claims on the read operations *)

(** C5, as the code has it. The reads GET /:id, GET /history/:id and
    GET /stat-history/:id answer 404 with the error when a store call of
    theirs is rejected; a query that yields nothing is not an error:
    GET /:id for an identifier that no document carries answers 200 with
    null. *)
Theorem read_of_unknown_user_is_success (req : Request unit) (db : Store) :
  (∀ u, u ∈ users db → _id u ≠ params_id req) →
  getInformationOfUser None req db = respond 200 VNull
  ∧ (∀ e, getInformationOfUser (Some e) req db = respond 404 (error_body e))
  ∧ (∀ e, getHistoryOfUser (Some e) req db = respond 404 (error_body e))
  ∧ (∀ `{!DateSort} tz fault2 now_lo now_hi e,
       getStatsAndLastProduct tz (Some e) fault2 now_lo now_hi req db
       = respond 404 (error_body e))
  ∧ (∀ `{!DateSort} tz now_lo now_hi e,
       getStatsAndLastProduct tz None (Some e) now_lo now_hi req db
       = respond 404 (error_body e)).
Proof.
  intros Hno. split; [|by repeat split].
  unfold getInformationOfUser, findOne. simpl.
  by rewrite filter_no_key.
Qed.

Lemma read_of_unknown_user_is_success_witness :
  getInformationOfUser None (get_request other_id) fresh_store
  = respond 200 VNull.
Proof.
  apply (read_of_unknown_user_is_success (get_request other_id) fresh_store).
  intros u Hu. apply list_elem_of_singleton in Hu as ->. discriminate.
Defined.

(** C5, as stated, fails: the query of GET /:id yields nothing and the
    answer is 200 with null, not 404. *)
Lemma read_of_unknown_user_not_404 :
  user_by_id other_id fresh_store = None
  ∧ getInformationOfUser None (get_request other_id) fresh_store
    = respond 200 VNull
  ∧ status (getInformationOfUser None (get_request other_id) fresh_store) ≠ 404.
Proof. repeat split. vm_compute. discriminate. Qed.

(** ** The claims on login *)

Lemma user_by_mail_None (m : string) (db : Store) :
  user_by_mail m db = None ↔ ∀ u, u ∈ users db → mail u ≠ m.
Proof.
  unfold user_by_mail. split.
  - intros Hnone u Hu Hm.
    assert (u ∈ filter (λ v, mail v = m) (users db)) as Hin
      by by apply list_elem_of_filter.
    destruct (filter _ (users db)); [by apply elem_of_nil in Hin|done].
  - intros Hno. by rewrite filter_no_key.
Qed.

Lemma user_by_mail_Some (m : string) (db : Store) (u : User) :
  user_by_mail m db = Some u → u ∈ users db ∧ mail u = m.
Proof.
  unfold user_by_mail. intros Hu.
  assert (u ∈ filter (λ v, mail v = m) (users db)) as Hin.
  { destruct (filter _ (users db)); [done|].
    injection Hu as ->. apply list_elem_of_here. }
  apply list_elem_of_filter in Hin. tauto.
Qed.

Section LoginClaims.
Variable bcrypt_compare : string → string → Promise bool.

(** C8. With a store that answers: when the mail selects a user and the
    password verifies against the hash of this user, the answer is 200
    and its payload is the message and the identifier and the roles of
    the user, with no field for the password; when the password does
    not verify, the answer is 401; when no user has the mail, the answer
    is 401. *)
Theorem login_answers (req : Request LoginBody) (db : Store) :
  (∀ u, user_by_mail (body_mail (body req)) db = Some u →
        bcrypt_compare (body_password (body req)) (password u)
        = Resolved true →
        (login bcrypt_compare None req db).1
        = respond 200
            (VObj [("message", VStr "Utilisateur authentifié");
                   ("user", VObj [("userId", VStr (_id u));
                                  ("role", strings_value (roles u))])])
        ∧ keys (json (login bcrypt_compare None req db).1)
          = ["message"; "user"; "userId"; "role"])
  ∧ (∀ u, user_by_mail (body_mail (body req)) db = Some u →
          bcrypt_compare (body_password (body req)) (password u)
          = Resolved false →
          status (login bcrypt_compare None req db).1 = 401)
  ∧ ((∀ u, u ∈ users db → mail u ≠ body_mail (body req)) →
     status (login bcrypt_compare None req db).1 = 401).
Proof.
  unfold login, findOne, user_by_mail. simpl. split; [|split].
  - intros u -> ->. simpl. split; [done|].
    unfold strings_value. simpl. f_equal. f_equal. f_equal. f_equal.
    by induction (roles u).
  - by intros u -> ->.
  - intros Hno. by rewrite filter_no_key.
Qed.

(** C10. The session user is written exactly when the request succeeds:
    the answer is 200 exactly when the store answers, the mail selects a
    user and the password verifies against the hash of this user; then
    the session user holds the identifier, the mail and the roles of
    this user; with any other answer the session is left as it was. *)
Theorem login_writes_session_iff_success (fault : option Error)
    (req : Request LoginBody) (db : Store) :
  (status (login bcrypt_compare fault req db).1 = 200
   ↔ ∃ u, verified bcrypt_compare fault req db u)
  ∧ (∀ u, verified bcrypt_compare fault req db u →
       (login bcrypt_compare fault req db).2
       = Some {| userId := _id u; s_mail := mail u; s_roles := roles u |})
  ∧ (status (login bcrypt_compare fault req db).1 ≠ 200 →
     (login bcrypt_compare fault req db).2 = session_user req)
  ∧ (status (login bcrypt_compare fault req db).1 = 401 →
     (login bcrypt_compare fault req db).2 = session_user req).
Proof.
  unfold verified, login, findOne, user_by_mail.
  destruct fault as [e|]; simpl.
  { split; [split; [done|by intros (u & ? & _)]|].
    split; [by intros u (? & _)|]. by split. }
  destruct (head (filter _ (users db))) as [u|]; simpl.
  2: { split; [split; [done|by intros (u & _ & ? & _)]|].
       split; [by intros u (_ & ? & _)|]. by split. }
  destruct (bcrypt_compare _ (password u)) as [[|]|e] eqn:Hcmp; simpl.
  - split; [split; [intros _; by exists u|done]|].
    split; [by intros v (_ & [= <-] & _)|]. by split.
  - split; [split; [done|intros (v & _ & [= <-] & Hv); congruence]|].
    split; [intros v (_ & [= <-] & Hv); congruence|]. by split.
  - split; [split; [done|intros (v & _ & [= <-] & Hv); congruence]|].
    split; [intros v (_ & [= <-] & Hv); congruence|]. by split.
Qed.
End LoginClaims.

Lemma login_answers_witness :
  (login sample_compare None
     (login_request "arthur.geay@ynov.com" "N9qo8uLOickgx2ZMRZoMye")
     fresh_store).1
  = respond 200
      (VObj [("message", VStr "Utilisateur authentifié");
             ("user", VObj [("userId", VStr arthur_id);
                            ("role", strings_value ["admin"])])])
  ∧ status (login sample_compare None
              (login_request "arthur.geay@ynov.com" "azerty") fresh_store).1
    = 401
  ∧ status (login sample_compare None
              (login_request "nobody@ynov.com" "azerty") fresh_store).1
    = 401.
Proof.
  split; [|split].
  - apply (proj1 (login_answers sample_compare
                    (login_request "arthur.geay@ynov.com" "N9qo8uLOickgx2ZMRZoMye")
                    fresh_store)
             (sample_user arthur_id "arthur.geay@ynov.com" 0 []));
      reflexivity.
  - apply (proj1 (proj2 (login_answers sample_compare
                           (login_request "arthur.geay@ynov.com" "azerty")
                           fresh_store))
             (sample_user arthur_id "arthur.geay@ynov.com" 0 []));
      reflexivity.
  - apply (proj2 (proj2 (login_answers sample_compare
                           (login_request "nobody@ynov.com" "azerty")
                           fresh_store))).
    intros u Hu. apply list_elem_of_singleton in Hu as ->. discriminate.
Defined.

(** ** The claim on editInformationOfUser *)

Lemma cast_update_id (upd : gmap string Value) (id : ObjectId) (p : UserUpdate) :
  upd !! "_id" = Some (VStr id) → cast_update upd = Some p →
  set_id p = Some id.
Proof.
  intros Hid. unfold cast_update.
  assert (cast_path as_string "_id" upd = Some (Some id)) as ->
    by (unfold cast_path; by rewrite Hid).
  simpl. intros Hp.
  repeat match type of Hp with
         | context [cast_path ?c ?k upd] => destruct (cast_path c k upd); simpl in Hp
         end; try discriminate.
  by injection Hp as <-.
Qed.

Lemma apply_set_id (p : UserUpdate) (u u' : User) :
  apply_set p u = Resolved u' → _id u' = _id u.
Proof.
  unfold apply_set. destruct (decide _) as [Heq|]; [|done].
  intros [= <-]. exact Heq.
Qed.

(** An update leaves the identifiers of the collection as they are. *)
Lemma update_first_ids (P : User → Prop) `{!∀ u, Decision (P u)}
    (upd : User → Promise User) (l l' : list User) (n : Z) :
  (∀ u u', upd u = Resolved u' → _id u' = _id u) →
  update_first P upd l = Resolved (n, l') → _id <$> l' = _id <$> l.
Proof.
  intros Hupd. revert n l'.
  induction l as [|u l IH]; intros n l'; simpl.
  - by intros [= <- <-].
  - destruct (decide (P u)).
    + destruct (upd u) as [u'|] eqn:Hu; [|done].
      intros [= <- <-]. rewrite !fmap_cons. f_equal. by apply Hupd.
    + destruct (update_first P upd l) as [[m k]|]; [|done].
      intros [= <- <-]. rewrite !fmap_cons. f_equal. by eapply IH.
Qed.

(** An update that sets [_id] to the identifier of the filter is applied. *)
Lemma update_first_own_id (id : ObjectId) (p : UserUpdate) (l : list User) :
  set_id p = Some id →
  ∃ n l', update_first (λ u, _id u = id) (apply_set p) l = Resolved (n, l').
Proof.
  intros Hid. induction l as [|u l (n & l' & IH)]; simpl; [by eauto|].
  destruct (decide (_id u = id)) as [Hu|Hu].
  - unfold apply_set. rewrite Hid. simpl.
    rewrite decide_True by done. by eauto.
  - rewrite IH. by eauto.
Qed.

(** C9. Whatever the body holds, the update names the path parameter as
    [_id], and so does its cast; the write leaves the identifier of every
    document as it was, and it is not refused on account of [_id]: with a
    store that answers and a body that casts, the edit is acknowledged. *)
Theorem edit_keeps_identifier (fault : option Error)
    (req : Request (gmap string Value)) (db : Store) :
  edit_update req !! "_id" = Some (VStr (params_id req))
  ∧ (∀ p, cast_update (edit_update req) = Some p →
          set_id p = Some (params_id req))
  ∧ _id <$> users (editInformationOfUser fault req db).2 = _id <$> users db
  ∧ (∀ p, fault = None → cast_update (edit_update req) = Some p →
          (editInformationOfUser fault req db).1
          = respond 200 (message_body "Informations du profil mis à jour")).
Proof.
  assert (Hid : edit_update req !! "_id" = Some (VStr (params_id req)))
    by apply lookup_insert_eq.
  split; [exact Hid|]. split; [intros p; by apply cast_update_id|].
  unfold editInformationOfUser, updateOne. split.
  - destruct (cast_update (edit_update req)) as [p|]; [|done].
    destruct fault; [done|].
    destruct (update_first _ (apply_set p) (users db)) as [[n l]|] eqn:Hup;
      [|done].
    simpl. eapply update_first_ids; [|exact Hup]. apply apply_set_id.
  - intros p -> Hp. rewrite Hp.
    destruct (update_first_own_id (params_id req) p (users db))
      as (n & l & ->); [|done].
    by eapply cast_update_id.
Qed.

(** A body that names another [_id]: the edit is acknowledged, the other
    paths are set, the identifier stays. *)
Example edit_with_foreign_id :
  editInformationOfUser None
    {| params_id := arthur_id;
       body := {[ "_id" := VStr other_id; "fullname" := VStr "A. Geay" ]};
       session_user := None |}
    fresh_store
  = (respond 200 (message_body "Informations du profil mis à jour"),
     store_of [{| _id := arthur_id;
                  fullname := "A. Geay";
                  mail := "arthur.geay@ynov.com";
                  password := "$2b$10$N9qo8uLOickgx2ZMRZoMye";
                  timezone := "UTC +1";
                  registration_date := 1546300800000;
                  roles := ["admin"];
                  number_scan := 0;
                  history := [] |}]).
Proof. vm_compute. reflexivity. Qed.

(** * Further properties of the controller *)

#[local] Set Warnings "-clear-no-such-hyp".

(** ** First matches *)

Lemma first_match_split {A : Type} (P : A → Prop) `{!∀ x, Decision (P x)}
    (l : list A) (u : A) :
  head (filter P l) = Some u →
  ∃ l1 l2, l = l1 ++ u :: l2 ∧ Forall (λ v, ¬ P v) l1 ∧ P u.
Proof.
  induction l as [|v l IH]; [done|]. rewrite filter_cons.
  destruct (decide (P v)) as [Hv|Hv]; simpl.
  - intros [= ->]. by exists [], l.
  - intros Hu. destruct (IH Hu) as (l1 & l2 & -> & Hl1 & HP).
    exists (v :: l1), l2. split; [done|]. split; [by constructor|done].
Qed.

Lemma first_match_elem {A : Type} (P : A → Prop) `{!∀ x, Decision (P x)}
    (l : list A) (u : A) :
  head (filter P l) = Some u → u ∈ l ∧ P u.
Proof.
  intros Hu. destruct (first_match_split P l u Hu) as (l1 & l2 & -> & _ & HP).
  split; [|done]. apply elem_of_app. right. apply list_elem_of_here.
Qed.

Lemma first_match_unique_key {A B : Type} `{!EqDecision B} (key : A → B)
    (l : list A) (u : A) :
  NoDup (key <$> l) → u ∈ l → head (filter (λ x, key x = key u) l) = Some u.
Proof. intros Hnd Hu. by rewrite filter_unique_key. Qed.

Lemma update_first_split (P : User → Prop) `{!∀ u, Decision (P u)}
    (f : User → User) (l1 l2 : list User) (u : User) :
  Forall (λ v, ¬ P v) l1 → P u →
  update_first P (λ v, Resolved (f v)) (l1 ++ u :: l2)
  = Resolved (1, l1 ++ f u :: l2).
Proof.
  intros Hl1 Hu. induction Hl1 as [|v l1 Hv Hl1 IH]; simpl.
  - by rewrite decide_True.
  - rewrite decide_False by done. by rewrite IH.
Qed.

Lemma delete_first_split (P : User → Prop) `{!∀ u, Decision (P u)}
    (l1 l2 : list User) (u : User) :
  Forall (λ v, ¬ P v) l1 → P u →
  delete_first P (l1 ++ u :: l2) = (1, l1 ++ l2).
Proof.
  intros Hl1 Hu. induction Hl1 as [|v l1 Hv Hl1 IH]; simpl.
  - by rewrite decide_True.
  - rewrite decide_False by done. by rewrite IH.
Qed.

Lemma delete_first_no_match (P : User → Prop) `{!∀ u, Decision (P u)}
    (l : list User) :
  filter P l = [] → delete_first P l = (0, l).
Proof.
  induction l as [|u l IH]; intros Hf; [done|]. simpl.
  rewrite filter_cons in Hf. destruct (decide (P u)); [done|].
  by rewrite IH.
Qed.

Lemma user_by_id_elem (id : ObjectId) (db : Store) (u : User) :
  user_by_id id db = Some u → u ∈ users db ∧ _id u = id.
Proof. intros Hu. by apply (first_match_elem (λ v, _id v = id)). Qed.

(** ** One scan, and the reads after it *)

(** The store after one acknowledged scan of [u]: the document of [u] is
    replaced in place, everything else is as before. *)
Lemma scan_store (now : Date) (req : Request ScanBody) (db : Store) (u : User) :
  user_by_id (params_id req) db = Some u →
  ∃ l1 l2,
    users db = l1 ++ u :: l2
    ∧ addProductInHistory None now req db
      = (respond 201 (message_body "Produit scannés ajouté à l'historique"),
         {| users := l1 ++ push_scan (body_id (body req)) now u :: l2;
            products := products db |}).
Proof.
  intros Hu. destruct (first_match_split _ _ _ Hu) as (l1 & l2 & Hl & Hl1 & HP).
  exists l1, l2. split; [done|].
  unfold addProductInHistory, updateOne. rewrite Hl.
  by rewrite (update_first_split (λ v, _id v = params_id req)).
Qed.

(** X1. A scan of an existing user rewrites the document of this user
    only: the documents before and after it in the collection and the
    products are as they were, and in the document itself only [history],
    which gets the event at its end, and [number_scan], which is raised by
    one, differ. *)
Theorem scan_changes_one_document (now : Date) (req : Request ScanBody)
    (db : Store) (u : User) :
  user_by_id (params_id req) db = Some u →
  ∃ l1 u' l2,
    users db = l1 ++ u :: l2
    ∧ users (addProductInHistory None now req db).2 = l1 ++ u' :: l2
    ∧ products (addProductInHistory None now req db).2 = products db
    ∧ history u' = history u ++ [scan_event now req]
    ∧ number_scan u' = number_scan u + 1
    ∧ (_id u', fullname u', mail u', password u', timezone u',
       registration_date u', roles u')
      = (_id u, fullname u, mail u, password u, timezone u,
         registration_date u, roles u).
Proof.
  intros Hu. destruct (scan_store now req db u Hu) as (l1 & l2 & Hl & ->).
  by exists l1, (push_scan (body_id (body req)) now u), l2.
Qed.

Lemma scan_changes_one_document_witness :
  ∃ l1 u' l2,
    users busy_store
    = l1 ++ sample_user arthur_id "arthur.geay@ynov.com" 4
              [scan_at echalotte_id 30; scan_at other_id 70;
               scan_at echalotte_id 70; scan_at echalotte_id 10] :: l2
    ∧ users (addProductInHistory None 90
               (scan_request arthur_id echalotte_id) busy_store).2
      = l1 ++ u' :: l2
    ∧ number_scan u' = 5.
Proof.
  destruct (scan_changes_one_document 90 (scan_request arthur_id echalotte_id)
              busy_store
              (sample_user arthur_id "arthur.geay@ynov.com" 4
                 [scan_at echalotte_id 30; scan_at other_id 70;
                  scan_at echalotte_id 70; scan_at echalotte_id 10]))
    as (l1 & u' & l2 & H1 & H2 & _ & _ & H5 & _).
  - reflexivity.
  - exists l1, u', l2. split; [exact H1|]. split; [exact H2|exact H5].
Defined.

(** What a scan keeps and gives to the reads that follow: identifiers stay
    unique, the new document of the user is in the collection, the
    products are as before. *)
Lemma scan_then_read (now : Date) (req : Request ScanBody) (db : Store)
    (u : User) :
  NoDup (_id <$> users db) →
  user_by_id (params_id req) db = Some u →
  let db' := (addProductInHistory None now req db).2 in
  NoDup (_id <$> users db')
  ∧ push_scan (body_id (body req)) now u ∈ users db'
  ∧ products db' = products db.
Proof.
  intros Hnd Hu. destruct (scan_store now req db u Hu) as (l1 & l2 & Hl & ->).
  simpl. split; [|split; [|done]].
  - rewrite Hl in Hnd. by rewrite fmap_app, fmap_cons in *.
  - apply elem_of_app. right. apply list_elem_of_here.
Qed.

(** ** The reads of one user *)

Lemma history_pipeline_unique (db : Store) (u : User) :
  NoDup (_id <$> users db) → u ∈ users db →
  history_pipeline (_id u) db
  = [{| hr_id := _id u;
        hr_history := history u;
        hr_productInfo := lookup_products (products db) (history u) |}].
Proof.
  intros Hnd Hu. unfold history_pipeline, match_id.
  by rewrite (filter_unique_key _id).
Qed.

Lemma elem_of_lookup_products (ps : list Product) (evs : list ScanEvent)
    (p : Product) :
  p ∈ lookup_products ps evs
  ↔ p ∈ ps ∧ ∃ e, e ∈ evs ∧ product e = p_id p.
Proof.
  unfold lookup_products. rewrite list_elem_of_filter, list_elem_of_fmap.
  split.
  - intros [(e & Hp & He) Hin]. split; [done|]. by exists e.
  - intros [Hin (e & He & Hp)]. split; [|done]. by exists e.
Qed.

Section ReadClaims.
Context `{!DateSort}.

Lemma last_scan_pipeline_unique (db : Store) (u : User) :
  NoDup (_id <$> users db) → u ∈ users db →
  last_scan_pipeline (_id u) db
  = lookup_stage (products db) <$>
      (project_last <$> group_by_id (sort_by_date (unwind_history [u]))).
Proof.
  intros Hnd Hu. unfold last_scan_pipeline, match_id.
  by rewrite (filter_unique_key _id).
Qed.

(** X2. The history read of an existing user answers 200 with one row:
    the identifier, the whole history in the order it is stored, and as
    [productInfo] the products of the collection that an event of the
    history refers to, no other; an event whose product does not exist
    adds nothing to it. *)
Theorem history_read_of_user (req : Request unit) (db : Store) (u : User) :
  NoDup (_id <$> users db) → u ∈ users db → _id u = params_id req →
  ∃ info,
    getHistoryOfUser None req db
    = respond 200
        (VArr [history_value {| hr_id := _id u;
                                hr_history := history u;
                                hr_productInfo := info |}])
    ∧ ∀ p, p ∈ info
           ↔ p ∈ products db ∧ ∃ e, e ∈ history u ∧ product e = p_id p.
Proof.
  intros Hnd Hu Hid. exists (lookup_products (products db) (history u)).
  split; [|intros p; apply elem_of_lookup_products].
  unfold getHistoryOfUser, aggregate. rewrite <- Hid.
  by rewrite history_pipeline_unique.
Qed.

(** Once the identifier is cast: when no user carries it, the history
    read answers 200 with the empty array. *)
Lemma getHistoryOfUser_unknown (req : Request unit) (db : Store) :
  (∀ u, u ∈ users db → _id u ≠ params_id req) →
  getHistoryOfUser None req db = respond 200 (VArr []).
Proof.
  intros Hno.
  unfold getHistoryOfUser, aggregate, history_pipeline, match_id. simpl.
  by rewrite filter_no_key.
Qed.

(** X3. The history read of a request whose [req.params.id] casts to an
    identifier that no user carries answers 200 with the empty array, and
    404 when the aggregation is rejected; when [req.params.id] does not
    cast, the handler throws before it queries the store and gives no
    answer of its own. *)
Theorem history_read_of_unknown_user (req : Request unit) (db : Store) :
  (∀ id, ObjectId_cast (params_id req) = Some id →
         (∀ u, u ∈ users db → _id u ≠ id) →
         getHistoryOfUser_request None req db
         = Answered (respond 200 (VArr [])))
  ∧ (∀ id e, ObjectId_cast (params_id req) = Some id →
             getHistoryOfUser_request (Some e) req db
             = Answered (respond 404 (error_body e)))
  ∧ (ObjectId_cast (params_id req) = None →
     ∀ fault, getHistoryOfUser_request fault req db = Thrown cast_error).
Proof.
  unfold getHistoryOfUser_request. split; [|split].
  - intros id -> Hno. f_equal. by apply getHistoryOfUser_unknown.
  - by intros id e ->.
  - by intros ->.
Qed.

(** X4. After an acknowledged scan, the history read of the user answers
    with the history before the scan followed by the event of the scan. *)
Theorem history_read_after_scan (now : Date) (req : Request ScanBody)
    (rq : Request unit) (db : Store) (u : User) :
  NoDup (_id <$> users db) →
  user_by_id (params_id req) db = Some u →
  params_id rq = params_id req →
  getHistoryOfUser None rq (addProductInHistory None now req db).2
  = respond 200
      (VArr [history_value
               {| hr_id := params_id req;
                  hr_history := history u ++ [scan_event now req];
                  hr_productInfo :=
                    lookup_products (products db)
                      (history u ++ [scan_event now req]) |}]).
Proof.
  intros Hnd Hu Hrq.
  destruct (scan_then_read now req db u Hnd Hu) as (Hnd' & Hu' & Hps).
  destruct (user_by_id_elem _ _ _ Hu) as [_ Hid].
  unfold getHistoryOfUser, aggregate. rewrite Hrq.
  pose proof (history_pipeline_unique _ _ Hnd' Hu') as Hpipe.
  simpl in Hpipe. rewrite Hid in Hpipe. rewrite Hpipe, Hps. reflexivity.
Qed.

(** X5. After an acknowledged scan made at [now], the last-scan entry of
    the stats read carries the counter raised by one and an event that is
    not older than [now]; it is made at [now] when no event of the history
    is later, and it is the event of the scan itself when every event of
    the history is earlier. *)
Theorem last_scan_after_scan (tz : Z) (now_lo now_hi now : Date)
    (req : Request ScanBody) (rq : Request unit) (db : Store) (u : User) :
  NoDup (_id <$> users db) →
  user_by_id (params_id req) db = Some u →
  params_id rq = params_id req →
  ∃ e rest,
    getStatsAndLastProduct tz None None now_lo now_hi rq
      (addProductInHistory None now req db).2
    = respond 200
        (VArr (stats_value <$>
           LastScanEntry
             {| ls_id := params_id req;
                ls_number_scan := number_scan u + 1;
                ls_history := [e];
                productInfo := lookup_products (products db) [e] |}
           :: (TotalToday <$> rest)))
    ∧ now ≤ date_scan e
    ∧ ((∀ e', e' ∈ history u → date_scan e' ≤ now) → date_scan e = now)
    ∧ ((∀ e', e' ∈ history u → date_scan e' < now) → e = scan_event now req).
Proof.
  intros Hnd Hu Hrq.
  destruct (scan_then_read now req db u Hnd Hu) as (Hnd' & Hu' & Hps).
  destruct (user_by_id_elem _ _ _ Hu) as [_ Hid].
  destruct (last_scan_pipeline_latest _ _ Hnd' Hu')
    as (e & _ & Hpipe & He & Hmax); [simpl; by destruct (history u)|].
  simpl in Hpipe, He, Hmax. rewrite Hid, Hps in Hpipe.
  exists e. eexists. split; [|split; [|split]].
  - unfold getStatsAndLastProduct, aggregate. rewrite Hrq. simpl.
    rewrite Hpipe. reflexivity.
  - apply (Hmax (scan_event now req)). apply elem_of_app. right.
    apply list_elem_of_here.
  - intros Hold. apply Z.le_antisymm.
    + apply elem_of_app in He as [He|He]; [by apply Hold|].
      apply list_elem_of_singleton in He as ->. simpl. lia.
    + apply (Hmax (scan_event now req)). apply elem_of_app. right.
      apply list_elem_of_here.
  - intros Hold. apply elem_of_app in He as [He|He].
    + pose proof (Hold e He).
      pose proof (Hmax (scan_event now req)) as Hnew. simpl in Hnew.
      assert (now ≤ date_scan e).
      { apply Hnew. apply elem_of_app. right. apply list_elem_of_here. }
      lia.
    + by apply list_elem_of_singleton in He.
Qed.
End ReadClaims.

Lemma history_read_of_user_witness :
  ∃ info,
    getHistoryOfUser None (get_request arthur_id) midnight_store
    = respond 200
        (VArr [history_value
                 {| hr_id := arthur_id;
                    hr_history := [scan_at echalotte_id midnight_feb6];
                    hr_productInfo := info |}])
    ∧ ∀ p, p ∈ info
           ↔ p ∈ [echalotte]
             ∧ ∃ e, e ∈ [scan_at echalotte_id midnight_feb6]
                    ∧ product e = p_id p.
Proof.
  apply (history_read_of_user (get_request arthur_id) midnight_store
           (sample_user arthur_id "arthur.geay@ynov.com" 1
              [scan_at echalotte_id midnight_feb6])).
  - apply (bool_decide_unpack _). vm_compute. exact I.
  - apply list_elem_of_here.
  - reflexivity.
Defined.

Lemma history_read_of_unknown_user_witness :
  getHistoryOfUser_request None (get_request other_id) midnight_store
  = Answered (respond 200 (VArr []))
  ∧ getHistoryOfUser_request None (get_request "abc") midnight_store
    = Thrown cast_error.
Proof.
  split.
  - apply (proj1 (history_read_of_unknown_user (get_request other_id)
                    midnight_store) other_id).
    + vm_compute. reflexivity.
    + intros u Hu. apply list_elem_of_singleton in Hu as ->. discriminate.
  - apply (proj2 (proj2 (history_read_of_unknown_user (get_request "abc")
                           midnight_store))).
    vm_compute. reflexivity.
Defined.

Lemma history_read_after_scan_witness :
  getHistoryOfUser None (get_request arthur_id)
    (addProductInHistory None noon_feb6
       (scan_request arthur_id other_id) midnight_store).2
  = respond 200
      (VArr [history_value
               {| hr_id := arthur_id;
                  hr_history := [scan_at echalotte_id midnight_feb6;
                                 scan_at other_id noon_feb6];
                  hr_productInfo := [echalotte] |}]).
Proof.
  apply (history_read_after_scan noon_feb6 (scan_request arthur_id other_id)
           (get_request arthur_id) midnight_store
           (sample_user arthur_id "arthur.geay@ynov.com" 1
              [scan_at echalotte_id midnight_feb6])).
  - apply (bool_decide_unpack _). vm_compute. exact I.
  - reflexivity.
  - reflexivity.
Defined.

Lemma last_scan_after_scan_witness :
  ∃ e rest,
    @getStatsAndLastProduct merge_date_sort 0 None None noon_feb6 noon_feb6
      (get_request arthur_id)
      (addProductInHistory None noon_feb6
         (scan_request arthur_id other_id) midnight_store).2
    = respond 200
        (VArr (stats_value <$>
           LastScanEntry
             {| ls_id := arthur_id;
                ls_number_scan := 2;
                ls_history := [e];
                productInfo := lookup_products [echalotte] [e] |}
           :: (TotalToday <$> rest)))
    ∧ e = scan_at other_id noon_feb6.
Proof.
  destruct (@last_scan_after_scan merge_date_sort 0 noon_feb6 noon_feb6
              noon_feb6 (scan_request arthur_id other_id)
              (get_request arthur_id) midnight_store
              (sample_user arthur_id "arthur.geay@ynov.com" 1
                 [scan_at echalotte_id midnight_feb6]))
    as (e & rest & Hres & _ & _ & Hnew).
  - apply (bool_decide_unpack _). vm_compute. exact I.
  - reflexivity.
  - reflexivity.
  - exists e, rest. split; [exact Hres|]. apply Hnew.
    intros e' He'. apply list_elem_of_singleton in He' as ->.
    vm_compute. reflexivity.
Defined.

(** ** The today count, as the code computes it *)

Section CountClaims.
Context `{!DateSort}.

(** X6. The stats read of an existing user answers 200 with the rows of
    the last-scan pipeline followed by the count entry; [total_today] is
    the number of events of the user whose date is at least local midnight
    plus the milliseconds of the first clock reading and less than
    23:59:59 of the day of the second reading plus its milliseconds; when
    there is no such event the entry is absent, so [total_today] is never
    zero. *)
Theorem today_count_of_user (tz : Z) (now_lo now_hi : Date)
    (req : Request unit) (db : Store) (u : User) :
  NoDup (_id <$> users db) → u ∈ users db → _id u = params_id req →
  ∃ counted,
    counted
    = filter (λ e, local_midnight tz now_lo + (now_lo + tz) `mod` 1000
                   ≤ date_scan e
                   ∧ date_scan e
                     < local_midnight tz now_hi + 86399000
                       + (now_hi + tz) `mod` 1000)
        (history u)
    ∧ getStatsAndLastProduct tz None None now_lo now_hi req db
      = respond 200
          (VArr (stats_value <$>
             (LastScanEntry <$> last_scan_pipeline (params_id req) db)
             ++ match counted with
                | [] => []
                | _ :: _ => [TotalToday (Z.of_nat (length counted))]
                end)).
Proof.
  intros Hnd Hu Hid. eexists. split; [reflexivity|].
  unfold getStatsAndLastProduct, aggregate. simpl.
  rewrite <- Hid, today_pipeline_counts by done.
  rewrite setHours_start, setHours_end. unfold count_stage.
  by destruct (filter _ (history u)).
Qed.

(** X7. When both clock readings fall on one local day, every row the
    [$match] stage of the count keeps is an event of that day: the count
    never includes a scan of another day. *)
Theorem today_rows_within_day (tz : Z) (now_lo now_hi : Date)
    (userId : ObjectId) (rows : list Unwound) (r : Unwound) :
  same_local_day tz now_lo now_hi →
  r ∈ match_today userId (setHours tz now_lo 0 0 0)
        (setHours tz now_hi 23 59 59) rows →
  same_local_day tz (date_scan (u_history r)) now_lo.
Proof.
  unfold match_today, same_local_day. intros Hday Hr.
  apply list_elem_of_filter in Hr as [(_ & Hlo & Hhi) _].
  rewrite setHours_start in Hlo. rewrite setHours_end in Hhi.
  unfold local_midnight in *. rewrite <- Hday in Hhi.
  pose proof (Z.mod_pos_bound (now_lo + tz) 1000 ltac:(lia)).
  pose proof (Z.mod_pos_bound (now_hi + tz) 1000 ltac:(lia)).
  symmetry. apply (Z.div_unique_pos _ _ _
    (date_scan (u_history r) + tz - (now_lo + tz) `div` ms_per_day * ms_per_day));
    unfold ms_per_day in *; lia.
Qed.

(** X8. After an acknowledged scan made at [now], with [now] inside the
    window of the count, the stats read of the user holds a count entry,
    and [total_today] is one more than the number of events of the history
    before the scan that lie in the window. *)
Theorem today_count_after_scan (tz : Z) (now_lo now_hi now : Date)
    (req : Request ScanBody) (rq : Request unit) (db : Store) (u : User) :
  NoDup (_id <$> users db) →
  user_by_id (params_id req) db = Some u →
  params_id rq = params_id req →
  setHours tz now_lo 0 0 0 ≤ now → now < setHours tz now_hi 23 59 59 →
  let db' := (addProductInHistory None now req db).2 in
  getStatsAndLastProduct tz None None now_lo now_hi rq db'
  = respond 200
      (VArr (stats_value <$>
         (LastScanEntry <$> last_scan_pipeline (params_id req) db')
         ++ [TotalToday
               (Z.of_nat
                  (length
                     (filter (λ e, setHours tz now_lo 0 0 0 ≤ date_scan e
                                   ∧ date_scan e < setHours tz now_hi 23 59 59)
                        (history u))) + 1)])).
Proof.
  intros Hnd Hu Hrq Hlo Hhi db'.
  destruct (scan_then_read now req db u Hnd Hu) as (Hnd' & Hu' & Hps).
  destruct (user_by_id_elem _ _ _ Hu) as [_ Hid].
  unfold getStatsAndLastProduct, aggregate. simpl. rewrite Hrq.
  pose proof (today_pipeline_counts (setHours tz now_lo 0 0 0)
                (setHours tz now_hi 23 59 59) _ _ Hnd' Hu') as Hcount.
  simpl in Hcount. rewrite Hid in Hcount. fold db' in Hcount.
  rewrite Hcount, filter_app, filter_cons_True, filter_nil by done.
  unfold count_stage. rewrite length_app. simpl.
  destruct (filter _ (history u)) as [|e l]; simpl; [reflexivity|].
  replace (Z.of_nat (S (length l + 1))) with (Z.of_nat (S (length l)) + 1)
    by lia.
  reflexivity.
Qed.

(** X9. With unique identifiers, the stats read of a user is settled by
    the document of this user and by the products: the documents of the
    other users never show in it. *)
Theorem stats_of_own_document (tz : Z) (fault1 fault2 : option Error)
    (now_lo now_hi : Date) (req : Request unit) (db1 db2 : Store) (u : User) :
  NoDup (_id <$> users db1) → NoDup (_id <$> users db2) →
  u ∈ users db1 → u ∈ users db2 → products db1 = products db2 →
  _id u = params_id req →
  getStatsAndLastProduct tz fault1 fault2 now_lo now_hi req db1
  = getStatsAndLastProduct tz fault1 fault2 now_lo now_hi req db2.
Proof.
  intros Hnd1 Hnd2 Hu1 Hu2 Hps Hid.
  unfold getStatsAndLastProduct, aggregate. rewrite <- Hid.
  rewrite !last_scan_pipeline_unique, !today_pipeline_counts by done.
  by rewrite Hps.
Qed.
End CountClaims.

Lemma today_count_of_user_witness :
  ∃ counted,
    counted
    = filter (λ e, local_midnight 0 noon_feb6 + (noon_feb6 + 0) `mod` 1000
                   ≤ date_scan e
                   ∧ date_scan e
                     < local_midnight 0 noon_feb6 + 86399000
                       + (noon_feb6 + 0) `mod` 1000)
        [scan_at echalotte_id midnight_feb6; scan_at other_id noon_feb6]
    ∧ @getStatsAndLastProduct merge_date_sort 0 None None noon_feb6 noon_feb6
        (get_request arthur_id) two_scans_store
      = respond 200
          (VArr (stats_value <$>
             (LastScanEntry <$>
                @last_scan_pipeline merge_date_sort arthur_id two_scans_store)
             ++ match counted with
                | [] => []
                | _ :: _ => [TotalToday (Z.of_nat (length counted))]
                end)).
Proof.
  apply (@today_count_of_user merge_date_sort 0 noon_feb6 noon_feb6
           (get_request arthur_id) two_scans_store arthur_two_scans).
  - apply (bool_decide_unpack _). vm_compute. exact I.
  - apply list_elem_of_here.
  - reflexivity.
Defined.

Lemma today_rows_within_day_witness :
  same_local_day 0 noon_feb6 (noon_feb6 + 1000).
Proof.
  apply (today_rows_within_day 0 (noon_feb6 + 1000) (noon_feb6 + 1000) arthur_id
           (unwind_history (users two_scans_store))
           {| u_doc := arthur_two_scans;
              u_history := scan_at other_id noon_feb6 |}).
  - reflexivity.
  - apply list_elem_of_filter. split.
    + split; [reflexivity|]. split; vm_compute; [discriminate|reflexivity].
    + apply list_elem_of_further, list_elem_of_here.
Defined.

Lemma today_count_after_scan_witness :
  @getStatsAndLastProduct merge_date_sort 0 None None noon_feb6 noon_feb6
    (get_request arthur_id)
    (addProductInHistory None noon_feb6
       (scan_request arthur_id other_id) midnight_store).2
  = respond 200
      (VArr (stats_value <$>
         (LastScanEntry <$>
            @last_scan_pipeline merge_date_sort arthur_id
              (addProductInHistory None noon_feb6
                 (scan_request arthur_id other_id) midnight_store).2)
         ++ [TotalToday
               (Z.of_nat
                  (length
                     (filter (λ e, setHours 0 noon_feb6 0 0 0 ≤ date_scan e
                                   ∧ date_scan e < setHours 0 noon_feb6 23 59 59)
                        [scan_at echalotte_id midnight_feb6])) + 1)])).
Proof.
  apply (@today_count_after_scan merge_date_sort 0 noon_feb6 noon_feb6
           noon_feb6 (scan_request arthur_id other_id) (get_request arthur_id)
           midnight_store
           (sample_user arthur_id "arthur.geay@ynov.com" 1
              [scan_at echalotte_id midnight_feb6])).
  - apply (bool_decide_unpack _). vm_compute. exact I.
  - reflexivity.
  - reflexivity.
  - vm_compute. discriminate.
  - vm_compute. reflexivity.
Defined.

Lemma stats_of_own_document_witness :
  @getStatsAndLastProduct merge_date_sort 0 None None noon_feb6 noon_feb6
    (get_request arthur_id) two_scans_store
  = @getStatsAndLastProduct merge_date_sort 0 None None noon_feb6 noon_feb6
      (get_request arthur_id) crowded_store.
Proof.
  apply (@stats_of_own_document merge_date_sort 0 None None noon_feb6 noon_feb6
           (get_request arthur_id) two_scans_store crowded_store
           arthur_two_scans).
  - apply (bool_decide_unpack _). vm_compute. exact I.
  - apply (bool_decide_unpack _). vm_compute. exact I.
  - apply list_elem_of_here.
  - apply list_elem_of_further, list_elem_of_here.
  - reflexivity.
  - reflexivity.
Defined.

(** ** The profile read and the list of users *)

(** X10. The profile read of an existing user answers 200 with the
    identifier, the full name, the mail, the time zone, the counter and
    the registration date of the user, and with no other field: neither
    the password hash, nor the roles, nor the history. *)
Theorem profile_read_of_user (req : Request unit) (db : Store) (u : User) :
  user_by_id (params_id req) db = Some u →
  getInformationOfUser None req db
  = respond 200
      (VObj [("_id", VStr (_id u));
             ("fullname", VStr (fullname u));
             ("mail", VStr (mail u));
             ("timezone", VStr (timezone u));
             ("number_scan", VNum (number_scan u));
             ("registration_date", VDate (registration_date u))])
  ∧ keys (json (getInformationOfUser None req db))
    = ["_id"; "fullname"; "mail"; "timezone"; "number_scan";
       "registration_date"].
Proof.
  unfold getInformationOfUser, findOne, user_by_id. simpl. by intros ->.
Qed.

Lemma profile_read_of_user_witness :
  keys (json (getInformationOfUser None (get_request arthur_id) two_scans_store))
  = ["_id"; "fullname"; "mail"; "timezone"; "number_scan";
     "registration_date"].
Proof.
  apply (profile_read_of_user (get_request arthur_id) two_scans_store
           arthur_two_scans).
  reflexivity.
Defined.

(** X11. The list of users answers 200 with one object per document, in
    the order of the collection; the object of a user holds the password
    hash of this user, next to the identifier and the mail. A rejected
    call answers 400. *)
Theorem all_users_with_hashes (req : Request unit) (db : Store) :
  (∃ vs,
     getAllUsers None req db = respond 200 (VArr vs)
     ∧ length vs = length (users db)
     ∧ ∀ i u, users db !! i = Some u →
         ∃ fs, vs !! i = Some (VObj fs)
               ∧ field "_id" fs = Some (VStr (_id u))
               ∧ field "mail" fs = Some (VStr (mail u))
               ∧ field "password" fs = Some (VStr (password u)))
  ∧ ∀ e, getAllUsers (Some e) req db = respond 400 (error_body e).
Proof.
  split; [|done]. exists (user_value <$> users db).
  split; [done|]. split; [by rewrite length_fmap|].
  intros i u Hi. eexists. split.
  - rewrite list_lookup_fmap, Hi. reflexivity.
  - by repeat split.
Qed.

(** ** Edits *)

Lemma update_first_split_with (P : User → Prop) `{!∀ u, Decision (P u)}
    (upd : User → Promise User) (l1 l2 : list User) (u u' : User) :
  Forall (λ v, ¬ P v) l1 → P u → upd u = Resolved u' →
  update_first P upd (l1 ++ u :: l2) = Resolved (1, l1 ++ u' :: l2).
Proof.
  intros Hl1 Hu Hupd. induction Hl1 as [|v l1 Hv Hl1 IH]; simpl.
  - by rewrite decide_True, Hupd.
  - rewrite decide_False by done. by rewrite IH.
Qed.

Lemma first_match_app {A : Type} (P : A → Prop) `{!∀ x, Decision (P x)}
    (l1 l2 : list A) (u : A) :
  Forall (λ v, ¬ P v) l1 → P u → head (filter P (l1 ++ u :: l2)) = Some u.
Proof.
  intros Hl1 Hu. rewrite filter_app, filter_none.
  - by rewrite filter_cons_True.
  - by apply Forall_forall.
Qed.

(** The cast of an update, path by path. *)
Lemma cast_update_Some (upd : gmap string Value) (p : UserUpdate) :
  cast_update upd = Some p →
  cast_path as_string "_id" upd = Some (set_id p)
  ∧ cast_path as_string "fullname" upd = Some (set_fullname p)
  ∧ cast_path as_string "mail" upd = Some (set_mail p)
  ∧ cast_path as_string "password" upd = Some (set_password p)
  ∧ cast_path as_string "timezone" upd = Some (set_timezone p)
  ∧ cast_path as_date "registration_date" upd = Some (set_registration_date p)
  ∧ cast_path as_strings "roles" upd = Some (set_roles p)
  ∧ cast_path as_num "number_scan" upd = Some (set_number_scan p)
  ∧ cast_path as_events "history" upd = Some (set_history p).
Proof.
  unfold cast_update. intros Hp.
  repeat match type of Hp with
         | context [cast_path ?c ?k upd] =>
             destruct (cast_path c k upd); simpl in Hp
         end; try discriminate.
  by injection Hp as <-.
Qed.

(** A path that casts is set to the cast of what the update holds for it,
    and is not set when the update does not name it. *)
Lemma cast_path_Some {A : Type} (cast : Value → option A) (k : string)
    (upd : gmap string Value) (o : option A) :
  cast_path cast k upd = Some o → o = upd !! k ≫= cast.
Proof.
  unfold cast_path. destruct (upd !! k) as [v|]; simpl.
  - destruct (cast v); simpl; congruence.
  - congruence.
Qed.

Lemma cast_path_edit_update {A : Type} (cast : Value → option A) (k : string)
    (req : Request (gmap string Value)) :
  k ≠ "_id" → cast_path cast k (edit_update req) = cast_path cast k (body req).
Proof.
  intros Hk. unfold cast_path, edit_update. by rewrite lookup_insert_ne.
Qed.

(** The store after an acknowledged edit of [u]. *)
Lemma edit_store (req : Request (gmap string Value)) (db : Store) (u : User)
    (p : UserUpdate) :
  user_by_id (params_id req) db = Some u →
  cast_update (edit_update req) = Some p →
  ∃ l1 l2,
    users db = l1 ++ u :: l2
    ∧ Forall (λ v, _id v ≠ params_id req) l1
    ∧ editInformationOfUser None req db
      = (respond 200 (message_body "Informations du profil mis à jour"),
         {| users :=
              l1 ++ {| _id := _id u;
                       fullname := default (fullname u) (set_fullname p);
                       mail := default (mail u) (set_mail p);
                       password := default (password u) (set_password p);
                       timezone := default (timezone u) (set_timezone p);
                       registration_date :=
                         default (registration_date u) (set_registration_date p);
                       roles := default (roles u) (set_roles p);
                       number_scan := default (number_scan u) (set_number_scan p);
                       history := default (history u) (set_history p) |} :: l2;
            products := products db |}).
Proof.
  intros Hu Hp.
  destruct (first_match_split _ _ _ Hu) as (l1 & l2 & Hl & Hl1 & Hid).
  exists l1, l2. split; [done|]. split; [done|].
  unfold editInformationOfUser, updateOne. rewrite Hp, Hl.
  assert (set_id p = Some (params_id req)) as Hset
    by (eapply cast_update_id; [apply lookup_insert_eq|done]).
  erewrite (update_first_split_with (λ v, _id v = params_id req)); [done..|].
  unfold apply_set. rewrite Hset. simpl. rewrite decide_True by done.
  by rewrite Hid.
Qed.

(** X12. For a body that names only paths of the schema at top level,
    [history] apart (no update operator, no dotted path, no other key),
    with values that cast: an acknowledged edit of an existing user
    rewrites the document of this user only, in place; the identifier
    stays, each of these paths the body names gets the value given, each
    one it does not name keeps its value, and the history is kept; the
    other documents and the products are as they were. *)
Theorem edit_sets_named_paths (req : Request (gmap string Value))
    (db : Store) (u : User) (p : UserUpdate) :
  dom (body req) ⊆ plain_paths →
  user_by_id (params_id req) db = Some u →
  cast_update (edit_update req) = Some p →
  ∃ l1 u' l2,
    users db = l1 ++ u :: l2
    ∧ editInformationOfUser None req db
      = (respond 200 (message_body "Informations du profil mis à jour"),
         {| users := l1 ++ u' :: l2; products := products db |})
    ∧ _id u' = _id u
    ∧ fullname u' = default (fullname u) (body req !! "fullname" ≫= as_string)
    ∧ mail u' = default (mail u) (body req !! "mail" ≫= as_string)
    ∧ password u' = default (password u) (body req !! "password" ≫= as_string)
    ∧ timezone u' = default (timezone u) (body req !! "timezone" ≫= as_string)
    ∧ registration_date u'
      = default (registration_date u)
          (body req !! "registration_date" ≫= as_date)
    ∧ roles u' = default (roles u) (body req !! "roles" ≫= as_strings)
    ∧ number_scan u'
      = default (number_scan u) (body req !! "number_scan" ≫= as_num)
    ∧ history u' = history u.
Proof.
  intros Hplain Hu Hp.
  destruct (edit_store req db u p Hu Hp) as (l1 & l2 & Hl & _ & Hedit).
  destruct (cast_update_Some _ _ Hp)
    as (_ & Hf & Hm & Hpw & Ht & Hd & Hr & Hn & Hh).
  repeat match goal with
         | H : cast_path _ _ (edit_update req) = Some _ |- _ =>
             rewrite cast_path_edit_update in H by done;
             apply cast_path_Some in H
         end.
  assert (body req !! "history" = None) as Hnone.
  { apply not_elem_of_dom. intros Hin. apply Hplain in Hin.
    unfold plain_paths in Hin. set_solver. }
  rewrite Hnone in Hh. simpl in Hh.
  eexists l1, _, l2. split; [done|]. split; [exact Hedit|]. simpl.
  by rewrite Hf, Hm, Hpw, Ht, Hd, Hr, Hn, Hh.
Qed.

Lemma edit_sets_named_paths_witness :
  ∃ l1 u' l2,
    users two_scans_store = l1 ++ arthur_two_scans :: l2
    ∧ editInformationOfUser None
        (edit_request arthur_id
           {[ "fullname" := VStr "A. Geay"; "timezone" := VStr "UTC" ]})
        two_scans_store
      = (respond 200 (message_body "Informations du profil mis à jour"),
         {| users := l1 ++ u' :: l2; products := products two_scans_store |})
    ∧ fullname u' = "A. Geay"
    ∧ mail u' = "arthur.geay@ynov.com".
Proof.
  destruct (edit_sets_named_paths
              (edit_request arthur_id
                 {[ "fullname" := VStr "A. Geay"; "timezone" := VStr "UTC" ]})
              two_scans_store arthur_two_scans
              {| set_id := Some arthur_id;
                 set_fullname := Some "A. Geay";
                 set_mail := None;
                 set_password := None;
                 set_timezone := Some "UTC";
                 set_registration_date := None;
                 set_roles := None;
                 set_number_scan := None;
                 set_history := None |})
    as (l1 & u' & l2 & Hl & Hedit & _ & Hf & Hm & _).
  - apply (bool_decide_unpack _). vm_compute. exact I.
  - reflexivity.
  - vm_compute. reflexivity.
  - exists l1, u', l2. split; [exact Hl|]. split; [exact Hedit|].
    split; [exact Hf|exact Hm].
Defined.

Lemma cast_update_counter (id : ObjectId) (n : Z) :
  cast_update (<["_id" := VStr id]> {["number_scan" := VNum n]})
  = Some {| set_id := Some id;
            set_fullname := None;
            set_mail := None;
            set_password := None;
            set_timezone := None;
            set_registration_date := None;
            set_roles := None;
            set_number_scan := Some n;
            set_history := None |}.
Proof. unfold cast_update, cast_path. by simplify_map_eq. Qed.

Lemma cast_update_empty (id : ObjectId) :
  cast_update (<["_id" := VStr id]> ∅)
  = Some {| set_id := Some id;
            set_fullname := None;
            set_mail := None;
            set_password := None;
            set_timezone := None;
            set_registration_date := None;
            set_roles := None;
            set_number_scan := None;
            set_history := None |}.
Proof. unfold cast_update, cast_path. by simplify_map_eq. Qed.

(** X13. An edit does not keep the counter in step with the history: a
    body that names [number_scan] alone sets the counter of an existing
    user to the number given and leaves the history as it is, so the
    counter agrees with the history afterwards only when the number given
    is the length of the history. *)
Theorem edit_sets_counter (req : Request (gmap string Value)) (db : Store)
    (u : User) (n : Z) :
  user_by_id (params_id req) db = Some u →
  body req = {["number_scan" := VNum n]} →
  ∃ u',
    user_by_id (params_id req) (editInformationOfUser None req db).2 = Some u'
    ∧ (editInformationOfUser None req db).1
      = respond 200 (message_body "Informations du profil mis à jour")
    ∧ number_scan u' = n
    ∧ history u' = history u
    ∧ (scan_invariant u' ↔ n = Z.of_nat (length (history u))).
Proof.
  intros Hu Hbody.
  assert (Hp := cast_update_counter (params_id req) n).
  rewrite <- Hbody in Hp. fold (edit_update req) in Hp.
  destruct (edit_store req db u _ Hu Hp) as (l1 & l2 & Hl & Hl1 & ->).
  destruct (user_by_id_elem _ _ _ Hu) as [_ Hid].
  eexists. split; [|split; [done|]].
  - unfold user_by_id. simpl.
    apply (first_match_app (λ v, _id v = params_id req)); [done|]. exact Hid.
  - done.
Qed.

Lemma edit_sets_counter_witness :
  ∃ u',
    user_by_id arthur_id
      (editInformationOfUser None
         (edit_request arthur_id {["number_scan" := VNum 40]})
         two_scans_store).2 = Some u'
    ∧ number_scan u' = 40
    ∧ length (history u') = 2%nat.
Proof.
  destruct (edit_sets_counter
              (edit_request arthur_id {["number_scan" := VNum 40]})
              two_scans_store arthur_two_scans 40)
    as (u' & Hu' & _ & Hn & Hh & _).
  - reflexivity.
  - reflexivity.
  - exists u'. split; [exact Hu'|]. split; [exact Hn|]. by rewrite Hh.
Defined.

(** X14. An edit for an identifier that no user carries is acknowledged
    with 200 when the body casts, and the store is left as it was; a
    rejected write is answered with 400 and leaves the store as it was. *)
Theorem edit_of_unknown_user (req : Request (gmap string Value)) (db : Store) :
  (∀ u, u ∈ users db → _id u ≠ params_id req) →
  is_Some (cast_update (edit_update req)) →
  editInformationOfUser None req db
  = (respond 200 (message_body "Informations du profil mis à jour"), db)
  ∧ ∀ e, editInformationOfUser (Some e) req db
         = (respond 400 (error_body e), db).
Proof.
  intros Hno [p Hp]. unfold editInformationOfUser, updateOne. rewrite Hp.
  split; [|done].
  rewrite update_first_no_match by by apply filter_no_key.
  simpl. by rewrite store_eta.
Qed.

Lemma edit_of_unknown_user_witness :
  editInformationOfUser None
    (edit_request other_id {["fullname" := VStr "Nobody"]}) two_scans_store
  = (respond 200 (message_body "Informations du profil mis à jour"),
     two_scans_store).
Proof.
  apply (edit_of_unknown_user
           (edit_request other_id {["fullname" := VStr "Nobody"]})
           two_scans_store).
  - intros u Hu. apply list_elem_of_singleton in Hu as ->. discriminate.
  - eexists. vm_compute. reflexivity.
Defined.

Lemma update_first_same (P : User → Prop) `{!∀ u, Decision (P u)}
    (upd : User → Promise User) (l : list User) :
  (∀ u, P u → upd u = Resolved u) →
  ∃ n, update_first P upd l = Resolved (n, l).
Proof.
  intros Hupd. induction l as [|u l [n IH]]; simpl; [by eauto|].
  destruct (decide (P u)) as [Hu|Hu].
  - rewrite Hupd by done. by eauto.
  - rewrite IH. by eauto.
Qed.

(** X15. An edit with an empty body is acknowledged with 200 and changes
    nothing, whether a user carries the identifier or not. *)
Theorem edit_with_empty_body (req : Request (gmap string Value)) (db : Store) :
  body req = ∅ →
  editInformationOfUser None req db
  = (respond 200 (message_body "Informations du profil mis à jour"), db).
Proof.
  intros Hbody. unfold editInformationOfUser, edit_update, updateOne.
  rewrite Hbody, cast_update_empty.
  edestruct (update_first_same (λ u, _id u = params_id req)) as [n ->].
  - intros u Hu. unfold apply_set. simpl. rewrite decide_True by done.
    simpl. rewrite <- Hu. by destruct u.
  - simpl. by rewrite store_eta.
Qed.

Lemma edit_with_empty_body_witness :
  editInformationOfUser None (edit_request arthur_id ∅) two_scans_store
  = (respond 200 (message_body "Informations du profil mis à jour"),
     two_scans_store).
Proof.
  apply (edit_with_empty_body (edit_request arthur_id ∅) two_scans_store).
  reflexivity.
Defined.

(** ** Deletions *)

Lemma user_by_id_None (id : ObjectId) (db : Store) :
  user_by_id id db = None ↔ ∀ u, u ∈ users db → _id u ≠ id.
Proof.
  unfold user_by_id. split.
  - intros Hnone u Hu Hid.
    destruct (filter _ (users db)) as [|v l] eqn:Hf; [|done].
    by apply (filter_nil_not_elem_of _ _ u Hf).
  - intros Hno. by rewrite filter_no_key.
Qed.

(** The store after the deletion of [u]. *)
Lemma delete_store (req : Request unit) (db : Store) (u : User) :
  user_by_id (params_id req) db = Some u →
  ∃ l1 l2,
    users db = l1 ++ u :: l2
    ∧ Forall (λ v, _id v ≠ params_id req) l1
    ∧ deleteUser None req db
      = (respond 200 (message_body "Utilisateur supprimé"),
         {| users := l1 ++ l2; products := products db |}).
Proof.
  intros Hu.
  destruct (first_match_split _ _ _ Hu) as (l1 & l2 & Hl & Hl1 & Hid).
  exists l1, l2. split; [done|]. split; [done|].
  unfold deleteUser, deleteOne. rewrite Hl.
  by rewrite (delete_first_split (λ v, _id v = params_id req)).
Qed.

Lemma deleteUser_absent (req : Request unit) (db : Store) :
  user_by_id (params_id req) db = None →
  deleteUser None req db
  = (respond 200 (message_body "Utilisateur supprimé"), db).
Proof.
  intros Hu. unfold deleteUser, deleteOne.
  rewrite delete_first_no_match.
  - simpl. by rewrite store_eta.
  - unfold user_by_id in Hu. by destruct (filter _ (users db)).
Qed.

(** With unique identifiers, no document carries the identifier after the
    deletion. *)
Lemma deleteUser_gone (req : Request unit) (db : Store) :
  NoDup (_id <$> users db) →
  ∀ v, v ∈ users (deleteUser None req db).2 → _id v ≠ params_id req.
Proof.
  intros Hnd. destruct (user_by_id (params_id req) db) as [u|] eqn:Hu.
  - destruct (delete_store req db u Hu) as (l1 & l2 & Hl & Hl1 & ->).
    destruct (user_by_id_elem _ _ _ Hu) as [_ Hid].
    simpl. intros v Hv. rewrite Hl, fmap_app, fmap_cons in Hnd.
    apply NoDup_app in Hnd as (_ & _ & Hnd).
    apply NoDup_cons in Hnd as [Hnot _].
    apply elem_of_app in Hv as [Hv|Hv].
    + rewrite Forall_forall in Hl1. by apply Hl1.
    + intros Hvid. apply Hnot. rewrite Hid, <- Hvid.
      by apply list_elem_of_fmap_2.
  - rewrite deleteUser_absent by done. simpl. by apply user_by_id_None.
Qed.

(** X16. The deletion of an existing user is acknowledged with 200 and
    removes the document of this user from its place; the documents before
    and after it and the products are as they were; with unique
    identifiers no document carries the identifier afterwards. *)
Theorem delete_removes_user (req : Request unit) (db : Store) (u : User) :
  NoDup (_id <$> users db) →
  user_by_id (params_id req) db = Some u →
  ∃ l1 l2,
    users db = l1 ++ u :: l2
    ∧ deleteUser None req db
      = (respond 200 (message_body "Utilisateur supprimé"),
         {| users := l1 ++ l2; products := products db |})
    ∧ user_by_id (params_id req) (deleteUser None req db).2 = None.
Proof.
  intros Hnd Hu.
  destruct (delete_store req db u Hu) as (l1 & l2 & Hl & _ & Hdel).
  exists l1, l2. split; [done|]. split; [done|].
  apply user_by_id_None. by apply deleteUser_gone.
Qed.

Lemma delete_removes_user_witness :
  ∃ l1 l2,
    users crowded_store = l1 ++ arthur_two_scans :: l2
    ∧ deleteUser None (get_request arthur_id) crowded_store
      = (respond 200 (message_body "Utilisateur supprimé"),
         {| users := l1 ++ l2; products := products crowded_store |})
    ∧ user_by_id arthur_id
        (deleteUser None (get_request arthur_id) crowded_store).2 = None.
Proof.
  apply (delete_removes_user (get_request arthur_id) crowded_store
           arthur_two_scans).
  - apply (bool_decide_unpack _). vm_compute. exact I.
  - reflexivity.
Defined.

(** X17. The deletion for an identifier that no user carries is
    acknowledged with 200 all the same and leaves the store as it was; a
    rejected deletion is answered with 400 and leaves the store as it
    was. *)
Theorem delete_of_unknown_user (req : Request unit) (db : Store) :
  (∀ u, u ∈ users db → _id u ≠ params_id req) →
  deleteUser None req db
  = (respond 200 (message_body "Utilisateur supprimé"), db)
  ∧ ∀ e, deleteUser (Some e) req db = (respond 400 (error_body e), db).
Proof.
  intros Hno. split; [|done].
  by apply deleteUser_absent, user_by_id_None.
Qed.

Lemma delete_of_unknown_user_witness :
  deleteUser None (get_request other_id) two_scans_store
  = (respond 200 (message_body "Utilisateur supprimé"), two_scans_store).
Proof.
  apply (delete_of_unknown_user (get_request other_id) two_scans_store).
  intros u Hu. apply list_elem_of_singleton in Hu as ->. discriminate.
Defined.

(** X18. With unique identifiers, deleting twice is deleting once: the
    second deletion is acknowledged and changes nothing. *)
Theorem delete_twice (req : Request unit) (db : Store) :
  NoDup (_id <$> users db) →
  deleteUser None req (deleteUser None req db).2
  = (respond 200 (message_body "Utilisateur supprimé"),
     (deleteUser None req db).2).
Proof.
  intros Hnd. apply deleteUser_absent, user_by_id_None.
  by apply deleteUser_gone.
Qed.

Lemma delete_twice_witness :
  deleteUser None (get_request arthur_id)
    (deleteUser None (get_request arthur_id) crowded_store).2
  = (respond 200 (message_body "Utilisateur supprimé"),
     (deleteUser None (get_request arthur_id) crowded_store).2).
Proof.
  apply (delete_twice (get_request arthur_id) crowded_store).
  apply (bool_decide_unpack _). vm_compute. exact I.
Defined.

Section AfterDelete.
Context `{!DateSort}.

(** X19. With unique identifiers, after the deletion of a user the reads
    for the identifier answer as for an unknown user, 200 with null for
    the profile and 200 with the empty array for the history and for the
    stats, and a scan for the identifier is acknowledged with 201 without
    writing anything. *)
Theorem requests_after_delete (tz : Z) (now_lo now_hi now : Date)
    (req : Request unit) (scan : Request ScanBody) (db : Store) :
  NoDup (_id <$> users db) →
  params_id scan = params_id req →
  let db' := (deleteUser None req db).2 in
  getInformationOfUser None req db' = respond 200 VNull
  ∧ getHistoryOfUser None req db' = respond 200 (VArr [])
  ∧ getStatsAndLastProduct tz None None now_lo now_hi req db'
    = respond 200 (VArr [])
  ∧ addProductInHistory None now scan db'
    = (respond 201 (message_body "Produit scannés ajouté à l'historique"), db').
Proof.
  intros Hnd Hscan db'.
  pose proof (deleteUser_gone req db Hnd) as Hgone. fold db' in Hgone.
  split; [|split; [|split]].
  - unfold getInformationOfUser, findOne. simpl. by rewrite filter_no_key.
  - unfold getHistoryOfUser, aggregate, history_pipeline, match_id. simpl.
    by rewrite filter_no_key.
  - unfold getStatsAndLastProduct, aggregate. simpl.
    rewrite last_scan_pipeline_no_history, today_pipeline_no_history;
      [done| |]; intros u Hu Hid; by destruct (Hgone u Hu).
  - apply addProductInHistory_absent, user_by_id_None. by rewrite Hscan.
Qed.
End AfterDelete.

Lemma requests_after_delete_witness :
  getInformationOfUser None (get_request arthur_id)
    (deleteUser None (get_request arthur_id) crowded_store).2
  = respond 200 VNull
  ∧ getHistoryOfUser None (get_request arthur_id)
      (deleteUser None (get_request arthur_id) crowded_store).2
    = respond 200 (VArr [])
  ∧ @getStatsAndLastProduct merge_date_sort 0 None None noon_feb6 noon_feb6
      (get_request arthur_id)
      (deleteUser None (get_request arthur_id) crowded_store).2
    = respond 200 (VArr [])
  ∧ addProductInHistory None noon_feb6 (scan_request arthur_id echalotte_id)
      (deleteUser None (get_request arthur_id) crowded_store).2
    = (respond 201 (message_body "Produit scannés ajouté à l'historique"),
       (deleteUser None (get_request arthur_id) crowded_store).2).
Proof.
  apply (@requests_after_delete merge_date_sort 0 noon_feb6 noon_feb6 noon_feb6
           (get_request arthur_id) (scan_request arthur_id echalotte_id)
           crowded_store).
  - apply (bool_decide_unpack _). vm_compute. exact I.
  - reflexivity.
Defined.

(** ** Sessions *)

(** X20. Logout answers 200 exactly when the session holds a user and the
    session is destroyed without error; the cookie is cleared in this case
    and in no other, and the session then holds no user. Without a user in
    the session the answer is 400, nothing is destroyed and the cookie is
    kept. *)
Theorem logout_outcomes (destroyed : Destroyed) (req : Request unit) :
  (lo_response (logout destroyed req)
   = Some (respond 200 (message_body "Utilisateur déconnecté"))
   ↔ is_Some (session_user req) ∧ destroyed = DestroyOk)
  ∧ (lo_cookie_cleared (logout destroyed req) = true
     ↔ lo_response (logout destroyed req)
       = Some (respond 200 (message_body "Utilisateur déconnecté")))
  ∧ (lo_cookie_cleared (logout destroyed req) = true →
     lo_session (logout destroyed req) = None)
  ∧ (session_user req = None →
     logout destroyed req
     = {| lo_response :=
            Some (respond 400 (VObj [("error", VStr "Déconnexion impossible")]));
          lo_session := None;
          lo_cookie_cleared := false;
          lo_uncaught := None |}).
Proof.
  unfold logout.
  destruct (session_user req) as [su|], destroyed as [|err [|]]; simpl;
    (split; [split; [try done; by intros [[? ?] ?]|try done; by intros [? ?]]|]);
    (split; [by split|]); by split.
Qed.

Section SessionClaims.
Variable bcrypt_compare : string → string → Promise bool.

Lemma login_verified (fault : option Error) (req : Request LoginBody)
    (db : Store) (u : User) :
  verified bcrypt_compare fault req db u →
  login bcrypt_compare fault req db
  = (respond 200
       (VObj [("message", VStr "Utilisateur authentifié");
              ("user", VObj [("userId", VStr (_id u));
                             ("role", strings_value (roles u))])]),
     Some {| userId := _id u; s_mail := mail u; s_roles := roles u |}).
Proof.
  intros (-> & Hu & Hcmp). unfold login, findOne, user_by_mail in *. simpl.
  by rewrite Hu, Hcmp.
Qed.

(** X21. A verified login followed by a logout of the same session, its
    destruction succeeding: the logout answers 200, clears the cookie and
    leaves a session without user, and a further logout of this session
    answers 400. *)
Theorem logout_after_login (fault : option Error) (req : Request LoginBody)
    (db : Store) (u : User) (destroyed : Destroyed) (rq rq' : Request unit) :
  verified bcrypt_compare fault req db u →
  session_user rq = (login bcrypt_compare fault req db).2 →
  session_user rq' = lo_session (logout DestroyOk rq) →
  logout DestroyOk rq
  = {| lo_response := Some (respond 200 (message_body "Utilisateur déconnecté"));
       lo_session := None;
       lo_cookie_cleared := true;
       lo_uncaught := None |}
  ∧ lo_response (logout destroyed rq')
    = Some (respond 400 (VObj [("error", VStr "Déconnexion impossible")])).
Proof.
  intros Hv Hrq Hrq'. rewrite (login_verified _ _ _ _ Hv) in Hrq.
  simpl in Hrq. unfold logout in *. rewrite Hrq in *. simpl in Hrq'.
  by rewrite Hrq'.
Qed.
End SessionClaims.

Lemma logout_after_login_witness :
  logout DestroyOk
    {| params_id := ""; body := tt; session_user := Some arthur_session |}
  = {| lo_response := Some (respond 200 (message_body "Utilisateur déconnecté"));
       lo_session := None;
       lo_cookie_cleared := true;
       lo_uncaught := None |}
  ∧ lo_response
      (logout (DestroyErr "gone" true)
         {| params_id := ""; body := tt; session_user := None |})
    = Some (respond 400 (VObj [("error", VStr "Déconnexion impossible")])).
Proof.
  apply (logout_after_login sample_compare None
           (login_request "arthur.geay@ynov.com" "N9qo8uLOickgx2ZMRZoMye")
           two_scans_store arthur_two_scans (DestroyErr "gone" true)
           {| params_id := ""; body := tt; session_user := Some arthur_session |}
           {| params_id := ""; body := tt; session_user := None |}).
  - repeat split.
  - reflexivity.
  - reflexivity.
Defined.

(** ** The router *)

(** X22. Of the requests whose path has no empty segment (so no slash at
    its end) and no percent-escape, the router takes these and no other:
    GET or HEAD on /stat-history/:id, /history/:id and /all (the literal
    segment in any letter case) reach the stats, the history and the list
    of users; GET or HEAD on any other single segment reaches the profile
    read with the segment as identifier; PUT on a single segment reaches
    the edit; DELETE on /delete/:id reaches the deletion. *)
Theorem route_spec (m : Method) (path : list string) (h : Handler)
    (params : list string) :
  Forall plain_segment path →
  (route m path = Some (h, params)
   ↔ match h with
     | HStats =>
         (m = GET ∨ m = HEAD)
         ∧ ∃ seg id, path = [seg; id] ∧ lower seg = "stat-history"
                     ∧ params = [id]
     | HHistory =>
         (m = GET ∨ m = HEAD)
         ∧ ∃ seg id, path = [seg; id] ∧ lower seg = "history"
                     ∧ params = [id]
     | HAll =>
         (m = GET ∨ m = HEAD)
         ∧ ∃ seg, path = [seg] ∧ lower seg = "all" ∧ params = []
     | HInfo =>
         (m = GET ∨ m = HEAD)
         ∧ ∃ id, path = [id] ∧ lower id ≠ "all" ∧ params = [id]
     | HEdit => m = PUT ∧ ∃ id, path = [id] ∧ params = [id]
     | HDelete =>
         m = DELETE
         ∧ ∃ seg id, path = [seg; id] ∧ lower seg = "delete"
                     ∧ params = [id]
     end).
Proof.
  intros Hplain.
  assert (Hne : ∀ seg, seg ∈ path → seg ≠ "").
  { intros seg Hseg. rewrite Forall_forall in Hplain.
    by destruct (Hplain seg Hseg). }
  clear Hplain. revert Hne.
  unfold route, routes, first_route, serves.
  destruct path as [|s1 [|s2 [|s3 path]]]; intros Hne; unfold match_path;
    change (lower "stat-history") with "stat-history";
    change (lower "history") with "history";
    change (lower "all") with "all";
    change (lower "delete") with "delete";
    try (assert (s1 ≠ "") by (apply Hne; set_solver));
    try (assert (s2 ≠ "") by (apply Hne; set_solver));
    clear Hne;
    destruct m; simpl; repeat case_decide; simpl; destruct h; try naive_solver.
  all: split; [done|]; intros (_ & ? & ? & [= <- <-] & Hl & _); congruence.
Qed.

Lemma route_spec_witness :
  route HEAD ["History"; arthur_id] = Some (HHistory, [arthur_id]).
Proof.
  apply (route_spec HEAD ["History"; arthur_id] HHistory [arthur_id]).
  - repeat constructor; try discriminate;
      apply (bool_decide_unpack _); vm_compute; exact I.
  - split; [by right|]. exists "History", arthur_id.
    split; [reflexivity|]. split; [vm_compute; reflexivity|reflexivity].
Defined.

(** The method a handler is reached with. *)
Lemma route_method (m : Method) (path : list string) (h : Handler)
    (params : list string) :
  route m path = Some (h, params) →
  match h with
  | HEdit => m = PUT
  | HDelete => m = DELETE
  | _ => m = GET ∨ m = HEAD
  end.
Proof.
  unfold route, routes, first_route, serves.
  destruct m; cbn -[match_path];
    repeat match goal with
           | |- context [match_path ?p path] => destruct (match_path p path)
           end; destruct h; naive_solver.
Qed.

Lemma editInformationOfUser_frame (fault : option Error)
    (req : Request (gmap string Value)) (db : Store) :
  _id <$> users (editInformationOfUser fault req db).2 = _id <$> users db
  ∧ products (editInformationOfUser fault req db).2 = products db.
Proof.
  unfold editInformationOfUser, updateOne.
  destruct (cast_update (edit_update req)) as [p|]; [|done].
  destruct fault; [done|].
  destruct (update_first _ (apply_set p) (users db)) as [[n l]|] eqn:Hup;
    [|done].
  simpl. split; [|done]. eapply update_first_ids; [|exact Hup].
  apply apply_set_id.
Qed.

Lemma delete_first_sublist (P : User → Prop) `{!∀ u, Decision (P u)}
    (l : list User) :
  (delete_first P l).2 `sublist_of` l.
Proof.
  induction l as [|u l IH]; simpl; [done|].
  destruct (decide (P u)).
  - simpl. by apply sublist_cons.
  - destruct (delete_first P l) as [k l']. simpl in *. by apply sublist_skip.
Qed.

Lemma deleteUser_frame (fault : option Error) (req : Request unit)
    (db : Store) :
  users (deleteUser fault req db).2 `sublist_of` users db
  ∧ products (deleteUser fault req db).2 = products db.
Proof.
  unfold deleteUser, deleteOne. destruct fault; [done|].
  pose proof (delete_first_sublist (λ u, _id u = params_id req) (users db)).
  by destruct (delete_first _ (users db)).
Qed.

Section RouterClaims.
Context `{!DateSort}.

(** X23. Whatever request the router takes, the products are left as they
    were and no user is added: the identifiers of the users afterwards
    are those before, in order, less the ones removed; only a DELETE
    request removes any, and a GET or HEAD request leaves the whole store
    as it was. *)
Theorem router_keeps_identifiers (env : Env) (m : Method)
    (path : list string) (payload : gmap string Value)
    (session : option SessionUser) (db db' : Store) (res : Response) :
  dispatch env m path payload session db = Some (res, db') →
  products db' = products db
  ∧ (_id <$> users db') `sublist_of` (_id <$> users db)
  ∧ (m ≠ DELETE → _id <$> users db' = _id <$> users db)
  ∧ (m = GET ∨ m = HEAD → db' = db).
Proof.
  unfold dispatch. destruct (route m path) as [[h params]|] eqn:Hr; [|done].
  apply route_method in Hr. intros Heq. apply (inj Some) in Heq.
  destruct h; try (injection Heq as <- <-; by repeat split).
  - destruct (editInformationOfUser_frame (env_fault1 env)
                {| params_id := default "" (head params);
                   body := payload; session_user := session |} db)
      as [Hids Hps].
    rewrite Heq in Hids, Hps. simpl in *. subst m.
    split; [done|]. split; [by rewrite Hids|]. split; [done|].
    by intros [|].
  - destruct (deleteUser_frame (env_fault1 env)
                {| params_id := default "" (head params);
                   body := tt; session_user := session |} db)
      as [Hsub Hps].
    rewrite Heq in Hsub, Hps. simpl in *. subst m.
    split; [done|]. split; [by apply fmap_sublist|]. split; [done|].
    by intros [|].
Qed.
End RouterClaims.

Lemma router_keeps_identifiers_witness :
  products (deleteUser None (get_request arthur_id) crowded_store).2
  = products crowded_store
  ∧ (_id <$> users (deleteUser None (get_request arthur_id) crowded_store).2)
      `sublist_of` (_id <$> users crowded_store)
  ∧ (DELETE ≠ DELETE →
     _id <$> users (deleteUser None (get_request arthur_id) crowded_store).2
     = _id <$> users crowded_store)
  ∧ (DELETE = GET ∨ DELETE = HEAD →
     (deleteUser None (get_request arthur_id) crowded_store).2 = crowded_store).
Proof.
  apply (@router_keeps_identifiers merge_date_sort quiet_env DELETE
           ["delete"; arthur_id] ∅ None crowded_store
           (deleteUser None (get_request arthur_id) crowded_store).2
           (respond 200 (message_body "Utilisateur supprimé"))).
  vm_compute. reflexivity.
Defined.
